(** * melitools: fetch, flatten and enrich marketplace listings

    A shallow embedding of [melitools.py] and the properties of its four
    stages: the paginated fetcher ([get_category_country_list]), row
    extraction ([single_df], [get_specific_attribute]), table assembly
    ([basic_df]) and the discount enrichment ([calculate_discount_metrics]).

    Conventions of the embedding
    - a JSON document is a value of [json]; a Python [dict] obtained from
      JSON is an association list whose first binding of a key is the one
      a lookup sees (parsed objects have no repeated keys);
    - numbers are exact rationals kept in lowest terms: the rounding of
      Python floats is not modelled;
    - a Python call that may raise returns an [outcome]: [Ok v], [Raise e]
      or [Beyond] where the libraries are used outside what is modelled
      here (a JMESPath expression outside the fragment below, [apply] on a
      frame without rows);
    - what pandas does with a list or a dict assigned to a column, and
      whether a null cell is [None] or [NaN], are parameters;
    - the network and the standard output are threaded explicitly. *)

From Stdlib Require Import Bool List String Ascii ZArith QArith Qreduction Lia.
From Stdlib Require Import DecimalString.
Import ListNotations.

Local Close Scope Q_scope.
Local Open Scope string_scope.
Local Open Scope list_scope.

(** ** Outcomes of Python calls *)

Inductive exn : Type :=
| KeyError
| TypeError
| AttributeError
| ValueError
| ZeroDivisionError
| UnboundLocalError
| StopIteration
| LexerError
| EmptyExpressionError.

Inductive outcome (A : Type) : Type :=
| Ok (a : A)
| Raise (e : exn)
| Beyond.

Arguments Ok {A} a.
Arguments Raise {A} e.
Arguments Beyond {A}.

Definition bind {A B : Type} (m : outcome A) (k : A -> outcome B) : outcome B :=
  match m with
  | Ok a => k a
  | Raise e => Raise e
  | Beyond => Beyond
  end.

Notation "x <- m ;; k" := (bind m (fun x => k))
  (at level 61, m at next level, right associativity).

Definition raises {A : Type} (m : outcome A) : Prop := exists e, m = Raise e.

(** ** JSON values *)

#[local] Set Warnings "-register-all".

Inductive json : Type :=
| JNull
| JBool (b : bool)
| JNum (q : Q)
| JStr (s : string)
| JArr (items : list json)
| JObj (fields : list (string * json)).

(** [d.get(k)]-style lookup in the bindings of a dict. *)
Fixpoint assoc {A : Type} (k : string) (kv : list (string * A)) : option A :=
  match kv with
  | [] => None
  | (k', v) :: rest => if String.eqb k k' then Some v else assoc k rest
  end.

Definition has_key {A : Type} (k : string) (kv : list (string * A)) : bool :=
  match assoc k kv with Some _ => true | None => false end.

(** [result.get(key)] and [result.get(key, None)]: the receiver has to be a
    dict, an absent key gives [None]. *)
Definition dict_get (d : json) (k : string) : outcome json :=
  match d with
  | JObj kv => Ok (match assoc k kv with Some v => v | None => JNull end)
  | _ => Raise AttributeError
  end.

(** [result[key]]: [KeyError] on a dict without the key; a list or a string
    indexed by a string, as any value that is not subscriptable, raises
    [TypeError]. *)
Definition getitem (d : json) (k : string) : outcome json :=
  match d with
  | JObj kv => match assoc k kv with Some v => Ok v | None => Raise KeyError end
  | _ => Raise TypeError
  end.

Definition chars (s : string) : list json :=
  map (fun c => JStr (String c EmptyString)) (list_ascii_of_string s).

(** [len(x)]: defined on strings, lists and dicts. *)
Definition py_len (v : json) : outcome nat :=
  match v with
  | JStr s => Ok (String.length s)
  | JArr l => Ok (List.length l)
  | JObj kv => Ok (List.length kv)
  | _ => Raise TypeError
  end.

(** [for item in x]: the members of a list, the characters of a string,
    the keys of a dict. *)
Definition py_iter (v : json) : outcome (list json) :=
  match v with
  | JStr s => Ok (chars s)
  | JArr l => Ok l
  | JObj kv => Ok (map (fun p => JStr (fst p)) kv)
  | _ => Raise TypeError
  end.

(** [x == y] on JSON data: [True == 1] as in Python, dicts compared
    regardless of the order of their keys. *)
Fixpoint py_eq (x y : json) {struct x} : bool :=
  match x, y with
  | JNull, JNull => true
  | JBool a, JBool b => Bool.eqb a b
  | JBool a, JNum q => Qeq_bool (if a then 1%Q else 0%Q) q
  | JNum q, JBool b => Qeq_bool q (if b then 1%Q else 0%Q)
  | JNum p, JNum q => Qeq_bool p q
  | JStr s, JStr t => String.eqb s t
  | JArr l, JArr m =>
      (fix all2 (l m : list json) {struct l} : bool :=
         match l, m with
         | [], [] => true
         | a :: l', b :: m' => py_eq a b && all2 l' m'
         | _, _ => false
         end) l m
  | JObj kv, JObj kw =>
      Nat.eqb (List.length kv) (List.length kw) &&
      (fix every (kv : list (string * json)) {struct kv} : bool :=
         match kv with
         | [] => true
         | (k, v) :: rest =>
             match assoc k kw with
             | Some w => py_eq v w
             | None => false
             end && every rest
         end) kv
  | _, _ => false
  end.

(** ** The JMESPath fragment used by the row extractor

    [jmespath.search(expression, data)] tokenizes the whole expression,
    parses the tokens and interprets the tree on [data].  The lexer below
    follows the library's character by character; the parser covers the two
    shapes of expression this program builds, a dotted chain of identifiers
    and the attribute filter, and answers [Beyond] on everything else. *)

Module JMESPath.

Inductive token : Type :=
| TIdent (name : string)
| TDot
| TLbracket
| TRbracket
| TFilter
| TEq
| TPipe
| TOr
| TRaw (s : string)
| TNumber (n : nat).

Definition is_digit (c : ascii) : bool :=
let n := nat_of_ascii c in (48 <=? n)%nat && (n <=? 57)%nat.

Definition is_letter (c : ascii) : bool :=
let n := nat_of_ascii c in
((65 <=? n)%nat && (n <=? 90)%nat) || ((97 <=? n)%nat && (n <=? 122)%nat).

(** [START_IDENTIFIER] and [VALID_IDENTIFIER] of the lexer. *)
Definition start_identifier (c : ascii) : bool :=
is_letter c || Ascii.eqb c "_".

Definition valid_identifier (c : ascii) : bool :=
is_letter c || is_digit c || Ascii.eqb c "_".

Definition whitespace (c : ascii) : bool :=
let n := nat_of_ascii c in
(n =? 32)%nat || (n =? 9)%nat || (n =? 10)%nat || (n =? 13)%nat.

Definition double_quote : ascii := ascii_of_nat 34.

(** Characters the library's lexer accepts but whose tokens are outside the
  fragment: [* , : @ ( ) { }], [&], the backquote, the double quote,
  [< > !] and the minus sign. *)
Definition unmodelled_start (c : ascii) : bool :=
existsb (Ascii.eqb c)
  ["*"; ","; ":"; "@"; "("; ")"; "{"; "}"; "&"; "`"; double_quote; "<"; ">"; "!"; "-"]%char.

(** [lexeme.replace("\\'", "'")] on a raw string literal. *)
Fixpoint unescape_quote (cs : list ascii) : list ascii :=
match cs with
| "\"%char :: "'"%char :: rest => "'"%char :: unescape_quote rest
| c :: rest => c :: unescape_quote rest
| [] => []
end.

Definition digit_value (c : ascii) : nat := nat_of_ascii c - 48.

(** [int(buff)] on a buffer of decimal digits. *)
Definition int_of_digits (cs : list ascii) : nat :=
fold_left (fun acc c => 10 * acc + digit_value c) cs 0.

(** Where the lexer stands between two characters. *)
Inductive mode : Type :=
| Start
| InIdent (buff : list ascii)
| InNumber (buff : list ascii)
| InRaw (buff : list ascii)
| InRawEscape (buff : list ascii)
| AfterLbracket
| AfterEq
| AfterPipe.

Definition emit (t : token) (rest : outcome (list token)) : outcome (list token) :=
ts <- rest ;; Ok (t :: ts).

Definition raw_token (buff : list ascii) : token :=
TRaw (string_of_list_ascii (unescape_quote buff)).

(** [Lexer.tokenize]: one character at a time.  [buff] accumulates the
  current lexeme in reading order; [fresh] is what the main loop does on a
  character that starts a new lexeme. *)
Fixpoint lex (m : mode) (cs : list ascii) {struct cs} : outcome (list token) :=
match cs with
| [] =>
    match m with
    | Start => Ok []
    | InIdent buff => Ok [TIdent (string_of_list_ascii buff)]
    | InNumber buff => Ok [TNumber (int_of_digits buff)]
    | InRaw _ | InRawEscape _ => Raise LexerError
    | AfterLbracket => Ok [TLbracket]
    | AfterEq => Raise LexerError
    | AfterPipe => Ok [TPipe]
    end
| c :: rest =>
    let fresh (_ : unit) : outcome (list token) :=
      if Ascii.eqb c "." then emit TDot (lex Start rest)
      else if Ascii.eqb c "]" then emit TRbracket (lex Start rest)
      else if start_identifier c then lex (InIdent [c]) rest
      else if whitespace c then lex Start rest
      else if Ascii.eqb c "[" then lex AfterLbracket rest
      else if Ascii.eqb c "'" then lex (InRaw []) rest
      else if Ascii.eqb c "|" then lex AfterPipe rest
      else if is_digit c then lex (InNumber [c]) rest
      else if Ascii.eqb c "=" then lex AfterEq rest
      else if unmodelled_start c then Beyond
      else Raise LexerError in
    match m with
    | Start => fresh tt
    | InIdent buff =>
        if valid_identifier c then lex (InIdent (buff ++ [c])) rest
        else emit (TIdent (string_of_list_ascii buff)) (fresh tt)
    | InNumber buff =>
        if is_digit c then lex (InNumber (buff ++ [c])) rest
        else emit (TNumber (int_of_digits buff)) (fresh tt)
    | InRaw buff =>
        if Ascii.eqb c "'" then emit (raw_token buff) (lex Start rest)
        else if Ascii.eqb c "\" then lex (InRawEscape (buff ++ [c])) rest
        else lex (InRaw (buff ++ [c])) rest
    | InRawEscape buff => lex (InRaw (buff ++ [c])) rest
    | AfterLbracket =>
        if Ascii.eqb c "?" then emit TFilter (lex Start rest)
        else if Ascii.eqb c "]" then Beyond
        else emit TLbracket (fresh tt)
    | AfterEq =>
        if Ascii.eqb c "=" then emit TEq (lex Start rest)
        else Raise LexerError
    | AfterPipe =>
        if Ascii.eqb c "|" then emit TOr (lex Start rest)
        else emit TPipe (fresh tt)
    end
end.

Definition tokenize (expression : string) : outcome (list token) :=
match expression with
| EmptyString => Raise EmptyExpressionError
| _ => lex Start (list_ascii_of_string expression)
end.

(** The nodes of the parse tree that the fragment needs. *)
Inductive ast : Type :=
| Field (name : string)
| Literal (v : json)
| Identity
| Index (n : nat)
| Subexpression (children : list ast)
| IndexExpression (children : list ast)
| Pipe (children : list ast)
| ComparatorEq (first second : ast)
| FilterProjection (lhs rhs condition : ast).

(** The tail of a dotted chain: [.name] repeated. *)
Fixpoint parse_fields (ts : list token) : option (list ast) :=
match ts with
| [] => Some []
| TDot :: TIdent name :: rest =>
    match parse_fields rest with
    | Some fs => Some (Field name :: fs)
    | None => None
    end
| _ => None
end.

(** [Parser.parse] on the two shapes of the fragment:
  [a.b.c], a sub-expression whose children are the fields in order, and
  [a[?f=='s'].g | [n]], the pipe of a filter projection into an index
  expression on the current node. *)
Definition parse (ts : list token) : outcome ast :=
match ts with
| [TIdent a; TFilter; TIdent f; TEq; TRaw s; TRbracket; TDot; TIdent g;
   TPipe; TLbracket; TNumber n; TRbracket] =>
    Ok (Pipe [FilterProjection (Field a) (Field g)
                (ComparatorEq (Field f) (Literal (JStr s)));
              IndexExpression [Identity; Index n]])
| TIdent a :: rest =>
    match parse_fields rest with
    | Some [] => Ok (Field a)
    | Some fs => Ok (Subexpression (Field a :: fs))
    | None => Beyond
    end
| _ => Beyond
end.

(** [_equals]: Python equality, except that a boolean never equals the
  numbers 0 and 1. *)
Definition is_zero_or_one (v : json) : bool :=
match v with
| JNum q => Qeq_bool q 0%Q || Qeq_bool q 1%Q
| _ => false
end.

Definition is_bool (v : json) : bool :=
match v with JBool _ => true | _ => false end.

Definition equals (x y : json) : bool :=
if (is_zero_or_one x && is_bool y) || (is_zero_or_one y && is_bool x)
then false else py_eq x y.

(** [_is_false]: the empty string, list and dict, [None] and [False]. *)
Definition is_false (v : json) : bool :=
match v with
| JStr EmptyString | JArr [] | JObj [] | JNull | JBool false => true
| _ => false
end.

Definition is_null (v : json) : bool :=
match v with JNull => true | _ => false end.

Definition visit_field (name : string) (value : json) : json :=
match value with
| JObj kv => match assoc name kv with Some v => v | None => JNull end
| _ => JNull
end.

Definition visit_index (n : nat) (value : json) : json :=
match value with
| JArr l => nth n l JNull
| _ => JNull
end.

(** [TreeInterpreter.visit]. *)
Fixpoint visit (node : ast) (value : json) {struct node} : json :=
let chain :=
  fix chain (children : list ast) (result : json) {struct children} : json :=
    match children with
    | [] => result
    | child :: rest => chain rest (visit child result)
    end in
match node with
| Field name => visit_field name value
| Literal v => v
| Identity => value
| Index n => visit_index n value
| Subexpression children => chain children value
| IndexExpression children => chain children value
| Pipe children => chain children value
| ComparatorEq first second =>
    JBool (equals (visit first value) (visit second value))
| FilterProjection lhs rhs condition =>
    match visit lhs value with
    | JArr base =>
        JArr (filter (fun current => negb (is_null current))
                (map (visit rhs)
                   (filter (fun element =>
                              negb (is_false (visit condition element)))
                      base)))
    | _ => JNull
    end
end.

(** [jmespath.search(expression, data)]. *)
Definition search (expression : string) (data : json) : outcome json :=
ts <- tokenize expression ;;
tree <- parse ts ;;
Ok (visit tree data).

End JMESPath.

(** ** Fetcher: [get_category_country_list] *)

(** [str(n)] for a natural number. *)
Definition str_of_nat (n : nat) : string :=
  NilZero.string_of_uint (Nat.to_uint n).

(** The address requested for a country, a category and an offset. *)
Definition search_url (country_id category : string) (offset : nat) : string :=
  "https://api.mercadolibre.com/sites/" ++ country_id ++ "/search?category="
    ++ (country_id ++ category) ++ "&offset=" ++ str_of_nat offset.

(** The [countries] argument: a list of site ids, or a single site id
    passed as a string. *)
Inductive countries_arg : Type :=
| OneCountry (site_id : string)
| Countries (site_ids : list string).

Section Fetcher.

(** The network: [requests.get(url).json()] answers with a document (or
    raises) and may change the state of the world. *)
Variable World : Type.
Variable http_get_json : string -> World -> outcome json * World.

(** [str(x)] on JSON data, as the f-string of the diagnostic formats it. *)
Variable py_str : json -> string.

(** What the program has done to its environment so far. *)
Record io : Type := { world : World; stdout : list string }.

Definition diagnostic (country_id category : string) (offset : nat)
           (error : json) : string :=
  (country_id ++ category) ++ " on the offset " ++ str_of_nat offset
    ++ " returned: " ++ py_str error.

(** What one iteration of the inner loop decides from the response. *)
Inductive page_step : Type :=
| Stop
| StopWithError (error : json)
| Collect (results : json).

Definition inspect_page (result : json) : outcome page_step :=
  results <- dict_get result "results" ;;
  n <- py_len results ;;
  match n with
  | O => Ok Stop
  | S _ =>
      error <- dict_get result "error" ;;
      match error with
      | JNull => page <- getitem result "results" ;; Ok (Collect page)
      | _ => Ok (StopWithError error)
      end
  end.

(** [for i in range(limit)]: [remaining] iterations are left and the next
    page index is [i]. *)
Fixpoint page_loop (country_id category : string) (remaining i : nat)
         (all_results : list json) (s : io) {struct remaining}
  : outcome (list json) * io :=
  match remaining with
  | O => (Ok all_results, s)
  | S remaining' =>
      let offset := 50 * i in
      let (response, w) :=
        http_get_json (search_url country_id category offset) (world s) in
      let s' := {| world := w; stdout := stdout s |} in
      match result <- response ;; inspect_page result with
      | Ok Stop => (Ok all_results, s')
      | Ok (StopWithError error) =>
          (Ok all_results,
           {| world := w;
              stdout := stdout s ++ [diagnostic country_id category offset error] |})
      | Ok (Collect page) =>
          page_loop country_id category remaining' (S i)
            (all_results ++ [page]) s'
      | Raise e => (Raise e, s')
      | Beyond => (Beyond, s')
      end
  end.

(** [for country_id in countries]. *)
Fixpoint country_loop (countries : list string) (category : string)
         (limit : Z) (all_results : list json) (s : io) {struct countries}
  : outcome (list json) * io :=
  match countries with
  | [] => (Ok all_results, s)
  | country_id :: rest =>
      match page_loop country_id category (Z.to_nat limit) 0 all_results s with
      | (Ok all_results', s') => country_loop rest category limit all_results' s'
      | failure => failure
      end
  end.

(** [[item for sublist in all_results for item in sublist]]. *)
Fixpoint flatten (all_results : list json) : outcome (list json) :=
  match all_results with
  | [] => Ok []
  | sublist :: rest =>
      items <- py_iter sublist ;;
      more <- flatten rest ;;
      Ok (items ++ more)
  end.

Definition get_category_country_list (countries : countries_arg)
           (category : string) (limit : Z) (s : io)
  : outcome (list json) * io :=
  let countries :=
    match countries with
    | OneCountry site_id => [site_id]
    | Countries site_ids => site_ids
    end in
  match country_loop countries category limit [] s with
  | (Ok all_results, s') => (flatten all_results, s')
  | failure => failure
  end.

End Fetcher.

Arguments world {World} _.
Arguments stdout {World} _.

(** ** Tables

    A [DataFrame] is the list of its rows; a row binds each of its column
    labels, in column order, to the cell it holds.  [None] and [NaN] cells
    are both [JNull]. *)

Definition row : Type := list (string * json).
Definition DataFrame : Type := list row.

Definition labels (r : row) : list string := map fst r.

(** Assigning one cell of a row: a known label keeps its position, a new
    one goes last. *)
Fixpoint set_cell (name : string) (v : json) (r : row) : row :=
  match r with
  | [] => [(name, v)]
  | (name', v') :: rest =>
      if String.eqb name name' then (name', v) :: rest
      else (name', v') :: set_cell name v rest
  end.

(** [pd.DataFrame(index=[0])]: one row, no column. *)
Definition empty_frame : DataFrame := [[]].

(** [pd.concat([a, b], ignore_index=True)]: the rows of [a] then those of
    [b], over the columns of [a] followed by the columns only [b] has; a
    cell a row does not have is null. *)
Definition frame_labels (df : DataFrame) : list string :=
  match df with
  | [] => []
  | r :: _ => labels r
  end.

Definition union_labels (a b : list string) : list string :=
  a ++ filter (fun name => negb (existsb (String.eqb name) a)) b.

Definition reindex (names : list string) (r : row) : row :=
  map (fun name =>
         (name, match assoc name r with Some v => v | None => JNull end))
      names.

Definition concat (a b : DataFrame) : DataFrame :=
  map (reindex (union_labels (frame_labels a) (frame_labels b))) (a ++ b).

(** ** Row extractor: [single_df] and [get_specific_attribute] *)

(** A feature is a field name, looked up directly, or a tuple of names,
    looked up by a nested query. *)
Inductive feature : Type :=
| Name (field : string)
| Path (segments : list string).

Definition default_features : list feature :=
  [Name "site_id"; Name "price"; Name "currency_id";
   Name "available_quantity"; Name "sold_quantity"; Name "buying_mode";
   Name "listing_type_id"; Name "condition"; Name "accepts_mercadopago";
   Name "original_price";
   Path ["seller"; "seller_reputation"; "level_id"];
   Path ["shipping"; "free_shipping"];
   Path ["address"; "state_name"]].

Definition default_attributes : list string := ["BRAND"; "MODEL"].

(** [if not xs: xs = default], for an argument that is [None] or a list. *)
Definition or_default {A : Type} (xs : option (list A)) (default : list A)
  : list A :=
  match xs with
  | None | Some [] => default
  | Some l => l
  end.

Definition get_specific_attribute (attribute_id : string) (result : json)
  : outcome json :=
  JMESPath.search
    ("attributes[?id=='" ++ attribute_id ++ "'].value_name | [0]") result.

(** The label and the value that one feature contributes to the row. *)
Definition feature_label (f : feature) : string :=
  match f with
  | Name field => field
  | Path segments => String.concat "_" segments
  end.

Definition feature_value (f : feature) (result : json) : outcome json :=
  match f with
  | Name field => getitem result field
  | Path segments => JMESPath.search (String.concat "." segments) result
  end.

Section RowExtractor.

(** What pandas stores in a one-row frame when a column is assigned a
    list or a dict: the cell, or nothing where the assignment raises
    [ValueError].  Scalars are stored as they are. *)
Variable listlike_cell : json -> option json.

Definition setitem (df : DataFrame) (name : string) (v : json)
  : outcome DataFrame :=
  match v with
  | JArr _ | JObj _ =>
      match listlike_cell v with
      | Some cell => Ok (map (set_cell name cell) df)
      | None => Raise ValueError
      end
  | _ => Ok (map (set_cell name v) df)
  end.

Fixpoint add_features (features : list feature) (result : json)
         (df : DataFrame) : outcome DataFrame :=
  match features with
  | [] => Ok df
  | f :: rest =>
      v <- feature_value f result ;;
      df' <- setitem df (feature_label f) v ;;
      add_features rest result df'
  end.

Fixpoint add_attributes (attributes : list string) (result : json)
         (df : DataFrame) : outcome DataFrame :=
  match attributes with
  | [] => Ok df
  | attrib :: rest =>
      v <- get_specific_attribute attrib result ;;
      df' <- setitem df attrib v ;;
      add_attributes rest result df'
  end.

Definition single_df (result : json) (features : option (list feature))
           (attributes : option (list string)) : outcome DataFrame :=
  let features := or_default features default_features in
  let attributes := or_default attributes default_attributes in
  df <- add_features features result empty_frame ;;
  add_attributes attributes result df.

(** ** Table assembler: [basic_df]

    The loop carries [start] and the local [df], which is unbound until
    the first iteration has run. *)
Fixpoint basic_df_loop (results : list json)
         (features : option (list feature))
         (attributes : option (list string))
         (start : bool) (df : option DataFrame)
  : outcome (option DataFrame) :=
  match results with
  | [] => Ok df
  | result :: rest =>
      if start then
        first <- single_df result features attributes ;;
        basic_df_loop rest features attributes false (Some first)
      else
        match df with
        | None => Raise UnboundLocalError
        | Some so_far =>
            next <- single_df result features attributes ;;
            basic_df_loop rest features attributes false
              (Some (concat so_far next))
        end
  end.

Definition basic_df (results : list json) (features : option (list feature))
           (attributes : option (list string)) : outcome DataFrame :=
  df <- basic_df_loop results features attributes true None ;;
  match df with
  | Some table => Ok table
  | None => Raise UnboundLocalError
  end.

End RowExtractor.

(** ** Enricher: [calculate_discount_metrics] *)

(** [row.name] and [df.name]: the label has to exist. *)
Definition attr (r : row) (name : string) : outcome json :=
  match assoc name r with
  | Some v => Ok v
  | None => Raise AttributeError
  end.

(** A number as Python arithmetic sees it: [True] and [False] count as 1
    and 0; anything else is a [TypeError]. *)
Definition as_number (v : json) : outcome Q :=
  match v with
  | JNum q => Ok q
  | JBool b => Ok (if b then 1%Q else 0%Q)
  | _ => Raise TypeError
  end.

(** A null cell reaches the arithmetic as the object [None], which is
    refused, or as the float [NaN], which propagates: pandas decides with
    the dtype of the column.  [nan] tells which. *)
Inductive operand : Type :=
| Number (q : Q)
| NaN.

Definition as_operand (nan : bool) (v : json) : outcome operand :=
  match v with
  | JNull => if nan then Ok NaN else Raise TypeError
  | _ => q <- as_number v ;; Ok (Number q)
  end.

Definition of_operand (x : operand) : json :=
  match x with
  | Number q => JNum (Qred q)
  | NaN => JNull
  end.

(** [a / b].  The quotient is the exact one, where Python rounds it to a
    float: the statements below rely on a zero divisor raising and on zero
    divided giving zero, not on the value of a quotient. *)
Definition truediv (a b : operand) : outcome operand :=
  match b with
  | Number y =>
      if Qeq_bool y 0%Q then Raise ZeroDivisionError
      else Ok (match a with Number x => Number (x / y) | NaN => NaN end)
  | NaN => Ok NaN
  end.

(** [a - b], exact as well. *)
Definition sub (a b : operand) : operand :=
  match a, b with
  | Number x, Number y => Number (x - y)
  | _, _ => NaN
  end.

(** [mapper_currency[key]] with a cell as the key: a list or a dict cannot
    be hashed, any other key that is not bound is a [KeyError]. *)
Definition rate_of (mapper_currency : list (string * json)) (key : json)
  : outcome json :=
  match key with
  | JStr code =>
      match assoc code mapper_currency with
      | Some rate => Ok rate
      | None => Raise KeyError
      end
  | JArr _ | JObj _ => Raise TypeError
  | _ => Raise KeyError
  end.

(** [df.apply(f, axis=1)]: [f] on each row, in order. *)
Fixpoint apply_rows (f : row -> outcome json) (df : DataFrame)
  : outcome (list json) :=
  match df with
  | [] => Ok []
  | r :: rest =>
      v <- f r ;;
      vs <- apply_rows f rest ;;
      Ok (v :: vs)
  end.

(** [df[name] = values], one value per row. *)
Fixpoint set_column (name : string) (values : list json) (df : DataFrame)
  : DataFrame :=
  match df, values with
  | r :: rest, v :: vs => set_cell name v r :: set_column name vs rest
  | _, _ => df
  end.

(** [df[name] = v], the same value in every row. *)
Definition fill_column (name : string) (v : json) (df : DataFrame) : DataFrame :=
  map (set_cell name v) df.

Definition isna (v : json) : bool :=
  match v with JNull => true | _ => false end.

(** [df.loc[mask, name] = v] *)
Fixpoint set_where (mask : list json) (name : string) (v : json)
         (df : DataFrame) : DataFrame :=
  match df, mask with
  | r :: rest, m :: ms =>
      (if isna m then set_cell name v r else r) :: set_where ms name v rest
  | _, _ => df
  end.

Section Enricher.

(** The module-level [mapper_currency]: the rates of the snapshot. *)
Variable mapper_currency : list (string * json).

(** Whether the null cells of a column of the input are [NaN]. *)
Variable nan_nulls : string -> bool.

(** The conversion used for [price_USD] and [descuento_USD].  A rate comes
    from the JSON snapshot as it is: a null rate is [None]. *)
Definition to_usd (nan : bool) (column : string) (r : row) : outcome json :=
  currency <- attr r "currency_id" ;;
  if negb (py_eq currency (JStr "USD")) then
    amount <- attr r column ;;
    rate <- rate_of mapper_currency currency ;;
    x <- as_operand nan amount ;;
    y <- as_operand false rate ;;
    quotient <- truediv x y ;;
    Ok (of_operand quotient)
  else attr r column.

Definition price_difference (r : row) : outcome json :=
  flag <- attr r "discount" ;;
  if py_eq flag (JNum 1%Q) then
    original <- attr r "original_price" ;;
    price <- attr r "price" ;;
    x <- as_operand (nan_nulls "original_price") original ;;
    y <- as_operand (nan_nulls "price") price ;;
    Ok (of_operand (sub x y))
  else Ok (JNum 0%Q).

(** The four assignments of the function, in order.  The differences are
    computed numbers, so a null among them is [NaN].  What pandas does with
    [apply] on a frame without rows is not modelled. *)
Definition calculate_discount_metrics (df : DataFrame) : outcome DataFrame :=
  match df with
  | [] => Beyond
  | _ =>
      price_usd <- apply_rows (to_usd (nan_nulls "price") "price") df ;;
      let df := set_column "price_USD" price_usd df in
      let df := fill_column "discount" (JNum 1%Q) df in
      original <- apply_rows (fun r => attr r "original_price") df ;;
      let df := set_where original "discount" (JNum 0%Q) df in
      difference <- apply_rows price_difference df ;;
      let df := set_column "descuento_precio" difference df in
      in_usd <- apply_rows (to_usd true "descuento_precio") df ;;
      Ok (set_column "descuento_USD" in_usd df)
  end.

End Enricher.

(** ** A scripted network for the scenarios

    The answers are served in order, whatever the address, and every
    address requested is recorded; a request past the end of the script
    raises, as a mock with a list of side effects does. *)

Module Mock.

Record state : Type := { pending : list json; requested : list string }.

Definition get (url : string) (m : state) : outcome json * state :=
  match pending m with
  | response :: rest =>
      (Ok response, {| pending := rest; requested := requested m ++ [url] |})
  | [] =>
      (Raise StopIteration,
       {| pending := []; requested := requested m ++ [url] |})
  end.

(** [str(x)] for the payloads of the scenarios, which are strings. *)
Definition str (v : json) : string :=
  match v with
  | JStr s => s
  | JNull => "None"
  | JBool true => "True"
  | JBool false => "False"
  | _ => "?"
  end.

Definition script (responses : list json) : io state :=
  {| world := {| pending := responses; requested := [] |}; stdout := [] |}.

Definition fetch (countries : countries_arg) (category : string) (limit : Z)
           (responses : list json) : outcome (list json) * io state :=
  get_category_country_list state get str countries category limit
    (script responses).

End Mock.

(** ** Vocabulary of the statements *)

(** A page that carries the non-empty list [items] and no error. *)
Definition nonempty_page (response : json) (items : list json) : Prop :=
  exists kv,
    response = JObj kv /\ assoc "results" kv = Some (JArr items) /\
    items <> [] /\
    (assoc "error" kv = None \/ assoc "error" kv = Some JNull).

(** A page whose list of results is empty. *)
Definition empty_page (response : json) : Prop :=
  exists kv, response = JObj kv /\ assoc "results" kv = Some (JArr []).

(** The requests of a country for consecutive page indexes from [i] on,
    each with the response it gets. *)
Fixpoint page_requests (country_id category : string) (i : nat)
         (responses : list json) : list (string * json) :=
  match responses with
  | [] => []
  | response :: rest =>
      (search_url country_id category (50 * i), response)
        :: page_requests country_id category (S i) rest
  end.

(** [serves http w exchanges w']: from the world [w], asking the addresses
    of [exchanges] one after the other gets the paired answers and leaves
    the world [w']. *)
Inductive serves {World : Type}
          (http : string -> World -> outcome json * World)
  : World -> list (string * json) -> World -> Prop :=
| serves_nil : forall w, serves http w [] w
| serves_cons : forall w url response w1 rest w2,
    http url w = (Ok response, w1) ->
    serves http w1 rest w2 ->
    serves http w ((url, response) :: rest) w2.

(** The body the marketplace answers with when a request is refused: an
    error report without a [results] member. *)
Definition refusal : json :=
  JObj [("message", JStr "Category not found"); ("error", JStr "not_found");
        ("status", JNum 404%Q); ("cause", JArr [])].

(** An error reported next to an empty list of results. *)
Definition empty_with_error : json :=
  JObj [("results", JArr []); ("error", JStr "not_found")].

(** Two pages of listings, then an empty page. *)
Definition listing (id : string) : json := JObj [("id", JStr id)].

Definition three_pages : list json :=
  [JObj [("results", JArr [listing "MLA1"; listing "MLA2"])];
   JObj [("results", JArr [listing "MLA3"]); ("error", JNull)];
   JObj [("results", JArr [])]].

(** The labels of a row after a cell named [name] has been assigned. *)
Definition add_label (name : string) (names : list string) : list string :=
  if existsb (String.eqb name) names then names else names ++ [name].

(** The same after the cells named by [added] have been assigned in turn. *)
Definition add_labels (added names : list string) : list string :=
  fold_left (fun names name => add_label name names) added names.

(** The columns a row extracted for [features] and [attributes] has: the
    label of each feature, then each attribute, a repeated label counting
    once at its first position. *)
Definition row_labels (features : option (list feature))
           (attributes : option (list string)) : list string :=
  add_labels
    (map feature_label (or_default features default_features)
       ++ or_default attributes default_attributes)
    [].

(** An unquoted identifier of JMESPath: a letter or an underscore, then
    letters, digits and underscores. *)
Definition identifier (s : string) : bool :=
  match list_ascii_of_string s with
  | c :: cs => JMESPath.start_identifier c && forallb JMESPath.valid_identifier cs
  | [] => false
  end.

(** A tuple of at least one segment, each an identifier. *)
Definition identifier_path (segments : list string) : bool :=
  match segments with
  | [] => false
  | _ => forallb identifier segments
  end.

(** Following each segment of a path in order, null as soon as the value
    at hand is not an object or does not have the key. *)
Fixpoint nested_lookup (segments : list string) (v : json) : json :=
  match segments with
  | [] => v
  | key :: rest =>
      match v with
      | JObj kv =>
          match assoc key kv with
          | Some x => nested_lookup rest x
          | None => JNull
          end
      | _ => JNull
      end
  end.

(** Every key of the path is found on the way down. *)
Fixpoint resolves (segments : list string) (v : json) : bool :=
  match segments with
  | [] => true
  | key :: rest =>
      match v with
      | JObj kv =>
          match assoc key kv with
          | Some x => resolves rest x
          | None => false
          end
      | _ => false
      end
  end.

(** The tokens of a dotted path. *)
Definition path_tokens (segments : list string) : list JMESPath.token :=
  match segments with
  | [] => []
  | s :: rest =>
      JMESPath.TIdent s
        :: flat_map (fun x => [JMESPath.TDot; JMESPath.TIdent x]) rest
  end.

(** The record is a dict that binds the field. *)
Definition has_field (result : json) (field : string) : bool :=
  match result with
  | JObj kv => has_key field kv
  | _ => false
  end.

(** Features whose lookup stays inside the modelled fragment of JMESPath:
    every direct name, and the paths of identifiers. *)
Definition plain_feature (f : feature) : bool :=
  match f with
  | Name _ => true
  | Path segments => identifier_path segments
  end.

(** A listing that has no [seller] member, and one that has it. *)
Definition listing_without_seller : json :=
  JObj [("price", JNum 100%Q); ("currency_id", JStr "ARS")].

Definition listing_with_seller : json :=
  JObj [("price", JNum 100%Q);
        ("seller",
         JObj [("seller_reputation", JObj [("level_id", JStr "5_green")])])].

(** pandas refusing every list and dict: the strictest extractor. *)
Definition scalars_only (v : json) : option json := None.

(** An identifier that can stand between the quotes of a raw string
    literal as it is: no quote and no backslash. *)
Definition plain_char (c : ascii) : bool :=
  negb (Ascii.eqb c "'") && negb (Ascii.eqb c "\").

Definition plain_literal (s : string) : bool :=
  forallb plain_char (list_ascii_of_string s).

(** The member [name] of a value, null when the value is not an object or
    has no such member. *)
Definition member (name : string) (v : json) : json :=
  JMESPath.visit_field name v.

Definition has_id (entry : json) (attribute_id : string) : bool :=
  match member "id" entry with
  | JStr s => String.eqb s attribute_id
  | _ => false
  end.

(** The display value of the first entry whose id is [attribute_id], null
    when there is none: the reading of the attribute query by its first
    matching entry. *)
Fixpoint first_entry_value (attribute_id : string) (entries : list json)
  : json :=
  match entries with
  | [] => JNull
  | entry :: rest =>
      if has_id entry attribute_id then member "value_name" entry
      else first_entry_value attribute_id rest
  end.

(** The first display value that is not null among the entries whose id is
    [attribute_id], null when there is none. *)
Fixpoint first_display_value (attribute_id : string) (entries : list json)
  : json :=
  match entries with
  | [] => JNull
  | entry :: rest =>
      if has_id entry attribute_id then
        match member "value_name" entry with
        | JNull => first_display_value attribute_id rest
        | v => v
        end
      else first_display_value attribute_id rest
  end.

(** A scan over the attribute list of a record, when it has one. *)
Definition over_attributes (scan : list json -> json) (result : json) : json :=
  match member "attributes" result with
  | JArr entries => scan entries
  | _ => JNull
  end.

Definition attribute_entry (id : string) (value_name : json) : json :=
  JObj [("id", JStr id); ("value_name", value_name)].

(** A listing whose first BRAND entry has no display value. *)
Definition listing_two_brands : json :=
  JObj [("attributes", JArr [attribute_entry "BRAND" JNull;
                             attribute_entry "BRAND" (JStr "Acme")])].

Definition listing_acme : json :=
  JObj [("attributes", JArr [attribute_entry "BRAND" (JStr "Acme")])].

(** The columns the enricher assigns, in the order it assigns them. *)
Definition derived_labels : list string :=
  ["price_USD"; "discount"; "descuento_precio"; "descuento_USD"].

(** The cell is a currency code bound in the rate map. *)
Definition is_rate_key (mapper_currency : list (string * json)) (key : json)
  : bool :=
  match key with
  | JStr code => has_key code mapper_currency
  | _ => false
  end.

(** What the four assignments of the enricher do to one row. *)
Definition enrich_row (mapper_currency : list (string * json))
           (nan_nulls : string -> bool) (r : row) : outcome row :=
  price_usd <- to_usd mapper_currency (nan_nulls "price") "price" r ;;
  let r := set_cell "discount" (JNum 1%Q) (set_cell "price_USD" price_usd r) in
  original <- attr r "original_price" ;;
  let r := if isna original then set_cell "discount" (JNum 0%Q) r else r in
  difference <- price_difference nan_nulls r ;;
  let r := set_cell "descuento_precio" difference r in
  in_usd <- to_usd mapper_currency true "descuento_precio" r ;;
  Ok (set_cell "descuento_USD" in_usd r).

(** Frames whose null cells are [None] objects, as [single_df] stores them. *)
Definition none_cells (column : string) : bool := false.

(** A rate snapshot and a table of three listings: one discounted, two
    without an original price. *)
Definition rates : list (string * json) := [("ARS", JNum 1000%Q)].

Definition priced_row (price : Q) (currency : string) (original : json) : row :=
  [("price", JNum price); ("currency_id", JStr currency);
   ("original_price", original)].

Definition priced_table : DataFrame :=
  [priced_row 100%Q "ARS" (JNum 150%Q);
   priced_row 7%Q "USD" JNull;
   priced_row 9%Q "ARS" JNull].

(** A table that already has a column named [discount]. *)
Definition promo_table : DataFrame :=
  [priced_row 7%Q "USD" JNull ++ [("discount", JStr "10%")]].

(** A table with a listing priced in a currency the snapshot lacks. *)
Definition unrated_table : DataFrame :=
  [priced_row 7%Q "USD" JNull; priced_row 9%Q "BRL" JNull].

(** A listing with every member the default features name. *)
Definition full_listing (price : Q) (original : json) : json :=
  JObj [("site_id", JStr "MLA"); ("price", JNum price);
        ("currency_id", JStr "ARS"); ("available_quantity", JNum 1%Q);
        ("sold_quantity", JNum 0%Q); ("buying_mode", JStr "buy_it_now");
        ("listing_type_id", JStr "gold_special"); ("condition", JStr "new");
        ("accepts_mercadopago", JBool true); ("original_price", original);
        ("seller",
         JObj [("seller_reputation", JObj [("level_id", JStr "5_green")])]);
        ("shipping", JObj [("free_shipping", JBool true)]);
        ("attributes", JArr [attribute_entry "BRAND" (JStr "Acme")])].

(** A page that carries the non-empty list [items] next to the error
    [error]. *)
Definition error_page (response : json) (items : list json) (error : json)
  : Prop :=
  exists kv,
    response = JObj kv /\ assoc "results" kv = Some (JArr items) /\
    items <> [] /\ assoc "error" kv = Some error /\ error <> JNull.

(** An answer that is an object without a [results] member. *)
Definition page_without_results (response : json) : Prop :=
  exists kv, response = JObj kv /\ assoc "results" kv = None.

(** [tour http category limit w plan w']: from the world [w] the network
    serves, country after country of [plan], the non-empty pages listed for
    it, closed by an empty page or by the limit. *)
Inductive tour {World : Type}
          (http : string -> World -> outcome json * World)
          (category : string) (limit : Z)
  : World -> list (string * list (list json)) -> World -> Prop :=
| tour_done : forall w, tour http category limit w [] w
| tour_empty_page : forall w country_id pages responses last w1 rest w2,
    Forall2 nonempty_page responses pages ->
    empty_page last ->
    (Z.of_nat (List.length pages) < limit)%Z ->
    serves http w (page_requests country_id category 0 (responses ++ [last])) w1 ->
    tour http category limit w1 rest w2 ->
    tour http category limit w ((country_id, pages) :: rest) w2
| tour_limit : forall w country_id pages responses w1 rest w2,
    Forall2 nonempty_page responses pages ->
    List.length pages = Z.to_nat limit ->
    serves http w (page_requests country_id category 0 responses) w1 ->
    tour http category limit w1 rest w2 ->
    tour http category limit w ((country_id, pages) :: rest) w2.

(** The items a tour collects: country, then page, then item. *)
Definition tour_items (plan : list (string * list (list json))) : list json :=
  List.concat (map (fun stop => List.concat (snd stop)) plan).

(** Four pages for two countries: one page and an empty one for the first,
    two pages, the limit, for the second. *)
Definition two_countries : list json :=
  [JObj [("results", JArr [listing "MLA1"])];
   JObj [("results", JArr [])];
   JObj [("results", JArr [listing "MLB1"; listing "MLB2"])];
   JObj [("results", JArr [listing "MLB3"])]].

(** A page of listings reported with an error. *)
Definition page_with_error : json :=
  JObj [("results", JArr [listing "MLA9"]); ("error", JStr "forbidden")].

(** Values pandas stores in a cell as they are: everything but lists and
    dicts. *)
Definition is_scalar (v : json) : bool :=
  match v with
  | JArr _ | JObj _ => false
  | _ => true
  end.

(** A rate the division accepts: a number other than zero ([True] counts
    as 1). *)
Definition usable_rate (rate : json) : bool :=
  match rate with
  | JNum q => negb (Qeq_bool q 0%Q)
  | JBool b => b
  | _ => false
  end.

(** A table without an original price column. *)
Definition bare_table : DataFrame :=
  [[("price", JNum 7%Q); ("currency_id", JStr "USD")]].

(** A snapshot that rates the real at zero. *)
Definition zero_rates : list (string * json) :=
  [("ARS", JNum 1000%Q); ("BRL", JNum 0%Q)].

(** The four assignments of the enricher on a frame, empty or not. *)
Definition enrich_columns (mapper_currency : list (string * json))
           (nan_nulls : string -> bool) (df : DataFrame) : outcome DataFrame :=
  price_usd <- apply_rows (to_usd mapper_currency (nan_nulls "price") "price") df ;;
  let df := set_column "price_USD" price_usd df in
  let df := fill_column "discount" (JNum 1%Q) df in
  original <- apply_rows (fun r => attr r "original_price") df ;;
  let df := set_where original "discount" (JNum 0%Q) df in
  difference <- apply_rows (price_difference nan_nulls) df ;;
  let df := set_column "descuento_precio" difference df in
  in_usd <- apply_rows (to_usd mapper_currency true "descuento_precio") df ;;
  Ok (set_column "descuento_USD" in_usd df).

(** * Properties *)

(** ** Table assembly on no record *)

(** C1: on an empty sequence of records the loop of [basic_df] never binds
    [df], and the final [return df] raises instead of giving a table
    without rows. *)
Theorem basic_df_empty_raises :
  forall listlike_cell features attributes,
    basic_df listlike_cell [] features attributes = Raise UnboundLocalError.
Proof. intros. reflexivity. Qed.

(** ** Fetcher and API errors *)

(** C2: the length of the results is taken before the error member is
    looked at.  On an error report without results the fetcher raises
    [TypeError]; on one with an empty list it stops without printing.  No
    diagnostic is emitted in either run. *)
Theorem fetch_error_page_not_reported :
  Mock.fetch (Countries ["MLA"]) "1055" 1 [refusal]
  = (Raise TypeError,
     {| world := {| Mock.pending := [];
                    Mock.requested := [search_url "MLA" "1055" 0] |};
        stdout := [] |})
  /\ Mock.fetch (Countries ["MLA"]) "1055" 1 [empty_with_error]
     = (Ok [],
        {| world := {| Mock.pending := [];
                       Mock.requested := [search_url "MLA" "1055" 0] |};
           stdout := [] |}).
Proof. split; reflexivity. Qed.

(** ** Pagination *)

Section Pagination.

Context {World : Type}.
Variable http : string -> World -> outcome json * World.
Variable py_str : json -> string.

Lemma inspect_nonempty_page :
  forall response items,
    nonempty_page response items ->
    inspect_page response = Ok (Collect (JArr items)).
Proof.
  intros response items (kv & -> & Hres & Hne & Herr).
  unfold inspect_page; simpl. rewrite Hres; simpl.
  destruct items as [|x xs]; [congruence|]. simpl.
  destruct Herr as [-> | ->]; reflexivity.
Qed.

Lemma inspect_empty_page :
  forall response, empty_page response -> inspect_page response = Ok Stop.
Proof.
  intros response (kv & -> & Hres).
  unfold inspect_page; simpl. rewrite Hres; reflexivity.
Qed.

(** The inner loop on a run of non-empty pages closed by an empty one. *)
Lemma page_loop_until_empty :
  forall country_id category pages responses last remaining i all_results s w',
    Forall2 nonempty_page responses pages ->
    empty_page last ->
    (List.length pages < remaining)%nat ->
    serves http (world s)
      (page_requests country_id category i (responses ++ [last])) w' ->
    page_loop World http py_str country_id category remaining i all_results s
    = (Ok (all_results ++ map JArr pages),
       {| world := w'; stdout := stdout s |}).
Proof.
  intros country_id category pages responses last remaining i all_results s w' Hpages.
  revert remaining i all_results s.
  induction Hpages as [|response items responses pages Hpage _ IH];
    intros remaining i all_results s Hlast Hlen Hserves;
    (destruct remaining as [|remaining]; [simpl in Hlen; lia|]);
    simpl in Hserves; inversion Hserves; subst; simpl.
  - match goal with H : http _ _ = _ |- _ => rewrite H end.
    match goal with H : serves _ _ [] _ |- _ => inversion H; subst end.
    simpl. rewrite (inspect_empty_page _ Hlast).
    rewrite app_nil_r. reflexivity.
  - match goal with H : http _ _ = _ |- _ => rewrite H end.
    simpl. rewrite (inspect_nonempty_page _ _ Hpage).
    rewrite (IH remaining (S i) (all_results ++ [JArr items])
               {| world := w1; stdout := stdout s |} Hlast).
    + simpl. rewrite <- app_assoc. reflexivity.
    + simpl in Hlen. lia.
    + simpl. assumption.
Qed.

Lemma flatten_pages :
  forall pages, flatten (map JArr pages) = Ok (List.concat pages).
Proof.
  induction pages as [|p pages IH]; simpl; [reflexivity|].
  rewrite IH. reflexivity.
Qed.

End Pagination.

(** C3: when a country's pages 0 to k-1 carry non-empty lists and page k,
    below the limit, carries an empty list, the fetcher asks for exactly the
    offsets 0, 50, ..., 50k, does not raise, prints nothing, keeps the lists
    of the k earlier pages in page order and goes on with the next country;
    called for that country alone it returns their items. *)
Theorem fetch_stops_at_first_empty_page :
  forall (World : Type) (http : string -> World -> outcome json * World)
         (py_str : json -> string)
         (country_id category : string) (limit : Z)
         (pages : list (list json)) (responses : list json) (last : json)
         (s : io World) (w' : World),
    Forall2 nonempty_page responses pages ->
    empty_page last ->
    (Z.of_nat (List.length pages) < limit)%Z ->
    serves http (world s)
      (page_requests country_id category 0 (responses ++ [last])) w' ->
    (forall rest all_results,
        country_loop World http py_str (country_id :: rest) category limit
          all_results s
        = country_loop World http py_str rest category limit
            (all_results ++ map JArr pages)
            {| world := w'; stdout := stdout s |})
    /\ get_category_country_list World http py_str (Countries [country_id])
         category limit s
       = (Ok (List.concat pages), {| world := w'; stdout := stdout s |}).
Proof.
  intros World http py_str country_id category limit pages responses last s w'
         Hpages Hlast Hlimit Hserves.
  assert (Hloop : forall all_results,
             page_loop World http py_str country_id category (Z.to_nat limit) 0
               all_results s
             = (Ok (all_results ++ map JArr pages),
                {| world := w'; stdout := stdout s |})).
  { intros all_results.
    apply page_loop_until_empty with (responses := responses) (last := last);
      try assumption. lia. }
  split.
  - intros rest all_results. simpl. rewrite Hloop. reflexivity.
  - unfold get_category_country_list. simpl. rewrite Hloop. simpl.
    rewrite flatten_pages. reflexivity.
Qed.

(** The scenario of C3: two non-empty pages, an empty one, a limit of 5. *)
Lemma fetch_stops_at_first_empty_page_witness :
  Mock.fetch (Countries ["MLA"]) "1055" 5 three_pages
  = (Ok [listing "MLA1"; listing "MLA2"; listing "MLA3"],
     {| world := {| Mock.pending := [];
                    Mock.requested := [search_url "MLA" "1055" 0;
                                       search_url "MLA" "1055" 50;
                                       search_url "MLA" "1055" 100] |};
        stdout := [] |}).
Proof.
  refine (proj2 (fetch_stops_at_first_empty_page Mock.state Mock.get Mock.str
                   "MLA" "1055" 5
                   [[listing "MLA1"; listing "MLA2"]; [listing "MLA3"]]
                   [nth 0 three_pages JNull; nth 1 three_pages JNull]
                   (nth 2 three_pages JNull)
                   (Mock.script three_pages) _ _ _ _ _)).
  - apply Forall2_cons; [|apply Forall2_cons; [|apply Forall2_nil]].
    + eexists. split; [reflexivity|]. split; [reflexivity|].
      split; [discriminate | left; reflexivity].
    + eexists. split; [reflexivity|]. split; [reflexivity|].
      split; [discriminate | right; reflexivity].
  - eexists; split; reflexivity.
  - simpl; lia.
  - simpl. repeat (eapply serves_cons; [reflexivity|]). apply serves_nil.
Defined.

(** ** Rows and their labels *)

Lemma assoc_set_cell_same :
  forall name v (r : row), assoc name (set_cell name v r) = Some v.
Proof.
  intros name v r. induction r as [|[k x] r IH]; simpl.
  - rewrite String.eqb_refl. reflexivity.
  - destruct (String.eqb name k) eqn:E; simpl; rewrite E; auto.
Qed.

Lemma assoc_set_cell_other :
  forall name other v (r : row),
    other <> name -> assoc other (set_cell name v r) = assoc other r.
Proof.
  intros name other v r Hne. induction r as [|[k x] r IH]; simpl.
  - apply String.eqb_neq in Hne. rewrite Hne. reflexivity.
  - destruct (String.eqb name k) eqn:E; simpl.
    + apply String.eqb_eq in E; subst k.
      apply String.eqb_neq in Hne. rewrite Hne. reflexivity.
    + destruct (String.eqb other k); auto.
Qed.

Lemma labels_set_cell :
  forall name v (r : row), labels (set_cell name v r) = add_label name (labels r).
Proof.
  intros name v r. unfold add_label.
  induction r as [|[k x] r IH]; simpl; [reflexivity|].
  destruct (String.eqb name k) eqn:E; simpl; [reflexivity|].
  unfold labels in *. rewrite IH.
  destruct (existsb (String.eqb name) (map fst r)); reflexivity.
Qed.

Lemma existsb_eqb_In :
  forall name names, existsb (String.eqb name) names = true <-> In name names.
Proof.
  intros name names. rewrite existsb_exists. split.
  - intros (x & Hin & Heq). apply String.eqb_eq in Heq. now subst.
  - intros Hin. exists name. split; [assumption | apply String.eqb_refl].
Qed.

Lemma NoDup_add_label :
  forall name names, NoDup names -> NoDup (add_label name names).
Proof.
  intros name names Hnd. unfold add_label.
  destruct (existsb (String.eqb name) names) eqn:E; [assumption|].
  apply NoDup_app; [assumption | repeat constructor; intros [] |].
  intros x Hin [<-|[]].
  apply existsb_eqb_In in Hin. congruence.
Qed.

Lemma NoDup_add_labels :
  forall added names, NoDup names -> NoDup (add_labels added names).
Proof.
  unfold add_labels.
  induction added as [|a added IH]; intros names Hnd; simpl; [assumption|].
  apply IH, NoDup_add_label, Hnd.
Qed.

Lemma reindex_own_labels :
  forall r : row, NoDup (labels r) -> reindex (labels r) r = r.
Proof.
  unfold reindex, labels.
  induction r as [|[k v] r IH]; intros Hnd; simpl; [reflexivity|].
  inversion Hnd as [|? ? Hnotin Hnd']; subst.
  rewrite String.eqb_refl. f_equal.
  rewrite <- (IH Hnd') at 2.
  apply map_ext_in. intros name Hin.
  destruct (String.eqb name k) eqn:E; [|reflexivity].
  apply String.eqb_eq in E; subst. contradiction.
Qed.

Lemma union_labels_same : forall names, union_labels names names = names.
Proof.
  intros names. unfold union_labels.
  assert (H : forall more, incl more names ->
              filter (fun name => negb (existsb (String.eqb name) names)) more = []).
  { induction more as [|m more IH]; intros Hincl; simpl; [reflexivity|].
    assert (Hm : existsb (String.eqb m) names = true).
    { apply existsb_eqb_In, Hincl; left; reflexivity. }
    rewrite Hm. simpl. apply IH. intros x Hx. apply Hincl. right; assumption. }
  rewrite (H names (incl_refl names)). apply app_nil_r.
Qed.

(** Concatenating frames over the same columns just appends the rows. *)
Lemma concat_same_labels :
  forall names (a b : DataFrame),
    NoDup names -> a <> [] -> b <> [] ->
    Forall (fun r => labels r = names) a ->
    Forall (fun r => labels r = names) b ->
    concat a b = a ++ b.
Proof.
  intros names a b Hnd Ha Hb Hla Hlb. unfold concat.
  assert (Hfa : frame_labels a = names).
  { destruct a; [congruence|]. inversion Hla; assumption. }
  assert (Hfb : frame_labels b = names).
  { destruct b; [congruence|]. inversion Hlb; assumption. }
  rewrite Hfa, Hfb, union_labels_same.
  rewrite <- (map_id (a ++ b)) at 2.
  apply map_ext_in. intros r Hin.
  assert (Hr : labels r = names).
  { apply in_app_or in Hin. destruct Hin as [Hin|Hin].
    - rewrite Forall_forall in Hla. auto.
    - rewrite Forall_forall in Hlb. auto. }
  rewrite <- Hr. apply reindex_own_labels. rewrite Hr. assumption.
Qed.

(** ** Table assembly *)

Section Assembly.

Variable listlike_cell : json -> option json.

Lemma setitem_one_row :
  forall (r : row) name v df,
    setitem listlike_cell [r] name v = Ok df ->
    exists cell, df = [set_cell name cell r].
Proof.
  intros r name v df H. unfold setitem in H.
  destruct v; simpl in H;
    try (injection H as <-; eexists; reflexivity);
    destruct (listlike_cell _); try discriminate;
    injection H as <-; eexists; reflexivity.
Qed.

Lemma add_features_one_row :
  forall features result (r : row) df,
    add_features listlike_cell features result [r] = Ok df ->
    exists r', df = [r'] /\
               labels r' = add_labels (map feature_label features) (labels r).
Proof.
  induction features as [|f features IH]; intros result r df H; simpl in H.
  - injection H as <-. exists r. split; reflexivity.
  - destruct (feature_value f result) as [v| |]; simpl in H; try discriminate.
    destruct (setitem listlike_cell [r] (feature_label f) v) as [df'| |] eqn:E;
      simpl in H; try discriminate.
    apply setitem_one_row in E. destruct E as (cell & ->).
    apply IH in H. destruct H as (r' & -> & Hl).
    exists r'. split; [reflexivity|].
    rewrite Hl, labels_set_cell. reflexivity.
Qed.

Lemma add_attributes_one_row :
  forall attributes result (r : row) df,
    add_attributes listlike_cell attributes result [r] = Ok df ->
    exists r', df = [r'] /\ labels r' = add_labels attributes (labels r).
Proof.
  induction attributes as [|a attributes IH]; intros result r df H; simpl in H.
  - injection H as <-. exists r. split; reflexivity.
  - destruct (get_specific_attribute a result) as [v| |]; simpl in H;
      try discriminate.
    destruct (setitem listlike_cell [r] a v) as [df'| |] eqn:E;
      simpl in H; try discriminate.
    apply setitem_one_row in E. destruct E as (cell & ->).
    apply IH in H. destruct H as (r' & -> & Hl).
    exists r'. split; [reflexivity|].
    rewrite Hl, labels_set_cell. reflexivity.
Qed.

(** A row extraction that returns gives one row, over [row_labels]. *)
Lemma single_df_one_row :
  forall result features attributes df,
    single_df listlike_cell result features attributes = Ok df ->
    exists r, df = [r] /\ labels r = row_labels features attributes.
Proof.
  intros result features attributes df H. unfold single_df in H.
  destruct (add_features _ _ _ _) as [df1| |] eqn:E1; simpl in H;
    try discriminate.
  apply add_features_one_row in E1. destruct E1 as (r1 & -> & Hl1).
  apply add_attributes_one_row in H. destruct H as (r & -> & Hl).
  exists r. split; [reflexivity|].
  rewrite Hl, Hl1. unfold row_labels, add_labels. rewrite fold_left_app. reflexivity.
Qed.

Lemma NoDup_row_labels :
  forall features attributes, NoDup (row_labels features attributes).
Proof.
  intros. unfold row_labels. apply NoDup_add_labels. constructor.
Qed.

(** The loop once [df] is bound: every further record appends its row. *)
Lemma basic_df_loop_appends :
  forall results features attributes so_far,
    so_far <> [] ->
    Forall (fun r => labels r = row_labels features attributes) so_far ->
    Forall (fun result =>
              exists df, single_df listlike_cell result features attributes = Ok df)
           results ->
    exists rows,
      basic_df_loop listlike_cell results features attributes false (Some so_far)
      = Ok (Some (so_far ++ rows)) /\
      Forall (fun r => labels r = row_labels features attributes) rows /\
      Forall2 (fun result r =>
                 single_df listlike_cell result features attributes = Ok [r])
              results rows.
Proof.
  induction results as [|result results IH];
    intros features attributes so_far Hne Hlabels Hall; simpl.
  - exists []. rewrite app_nil_r. repeat split; constructor.
  - inversion Hall as [|? ? (df & Hdf) Hall']; subst.
    destruct (single_df_one_row _ _ _ _ Hdf) as (r & -> & Hr).
    rewrite Hdf. simpl.
    rewrite (concat_same_labels (row_labels features attributes));
      try assumption;
      [| apply NoDup_row_labels | discriminate | constructor; [assumption|constructor]].
    destruct (IH features attributes (so_far ++ [r])) as (rows & Heq & Hl & Hrows).
    + destruct so_far; discriminate.
    + apply Forall_app. split; [assumption|]. constructor; [assumption|constructor].
    + assumption.
    + exists (r :: rows). rewrite <- app_assoc in Heq.
      split; [exact Heq|]. split; constructor; assumption.
Qed.

End Assembly.

(** C4: on a non-empty sequence of records each of which row extraction
    accepts, [basic_df] returns a table with one row per record, in the
    order of the records, every row over the same columns. *)
Theorem basic_df_rows_follow_records :
  forall listlike_cell results features attributes,
    results <> [] ->
    Forall (fun result =>
              exists df, single_df listlike_cell result features attributes = Ok df)
           results ->
    exists table,
      basic_df listlike_cell results features attributes = Ok table /\
      List.length table = List.length results /\
      Forall (fun r => labels r = row_labels features attributes) table /\
      Forall2 (fun result r =>
                 single_df listlike_cell result features attributes = Ok [r])
              results table.
Proof.
  intros listlike_cell results features attributes Hne Hall.
  destruct results as [|result results]; [congruence|].
  inversion Hall as [|? ? (df & Hdf) Hall']; subst.
  destruct (single_df_one_row _ _ _ _ _ Hdf) as (r & -> & Hr).
  destruct (basic_df_loop_appends listlike_cell results features attributes [r])
    as (rows & Heq & Hl & Hrows);
    [discriminate | constructor; [assumption|constructor] | assumption |].
  exists (r :: rows). unfold basic_df. simpl. rewrite Hdf. simpl.
  simpl in Heq.
  split; [exact (f_equal (fun m => bind m _) Heq)|]. split.
  - simpl. f_equal. symmetry. eapply Forall2_length; eassumption.
  - split; constructor; assumption.
Qed.

(** Two listings assembled with the default features and attributes. *)
Lemma basic_df_rows_follow_records_witness :
  exists table,
    basic_df scalars_only
      [full_listing 100%Q (JNum 150%Q); full_listing 80%Q JNull] None None
    = Ok table /\
    List.length table = 2%nat /\
    Forall (fun r => labels r = row_labels None None) table /\
    Forall2 (fun result r => single_df scalars_only result None None = Ok [r])
            [full_listing 100%Q (JNum 150%Q); full_listing 80%Q JNull] table.
Proof.
  apply (basic_df_rows_follow_records scalars_only
           [full_listing 100%Q (JNum 150%Q); full_listing 80%Q JNull]
           None None).
  - discriminate.
  - repeat (apply Forall_cons; [eexists; reflexivity|]). apply Forall_nil.
Defined.

(** ** Lexing and parsing dotted paths *)

Module PathFacts.
Import JMESPath.

Lemma list_ascii_app :
  forall a b,
    list_ascii_of_string (a ++ b)
    = list_ascii_of_string a ++ list_ascii_of_string b.
Proof.
  induction a as [|c a IH]; intros b; simpl; [reflexivity|].
  rewrite IH. reflexivity.
Qed.

Lemma lex_start_identifier :
  forall c rest,
    start_identifier c = true -> lex Start (c :: rest) = lex (InIdent [c]) rest.
Proof.
  intros c rest H.
  destruct c as [[|] [|] [|] [|] [|] [|] [|] [|]];
    try discriminate H; reflexivity.
Qed.

Lemma lex_identifier_end :
  forall buff c rest,
    valid_identifier c = false ->
    lex (InIdent buff) (c :: rest)
    = emit (TIdent (string_of_list_ascii buff)) (lex Start (c :: rest)).
Proof.
  intros buff c rest H. simpl. rewrite H. reflexivity.
Qed.

(** The lexer takes a run of identifier characters up to the first
    character that is not one, or to the end. *)
Lemma lex_identifier_run :
  forall cs buff rest,
    forallb valid_identifier cs = true ->
    match rest with [] => True | c :: _ => valid_identifier c = false end ->
    lex (InIdent buff) (cs ++ rest)
    = emit (TIdent (string_of_list_ascii (buff ++ cs))) (lex Start rest).
Proof.
  induction cs as [|c cs IH]; intros buff rest Hcs Hrest.
  - rewrite app_nil_r. simpl app. destruct rest as [|c rest].
    + reflexivity.
    + apply lex_identifier_end. assumption.
  - simpl in Hcs. apply andb_true_iff in Hcs. destruct Hcs as [Hc Hcs].
    simpl. rewrite Hc. rewrite (IH (buff ++ [c]) rest Hcs Hrest).
    rewrite <- app_assoc. reflexivity.
Qed.

Lemma lex_identifier :
  forall s rest,
    identifier s = true ->
    match rest with [] => True | c :: _ => valid_identifier c = false end ->
    lex Start (list_ascii_of_string s ++ rest)
    = emit (TIdent s) (lex Start rest).
Proof.
  intros s rest Hs Hrest. unfold identifier in Hs.
  rewrite <- (string_of_list_ascii_of_string s) at 2.
  destruct (list_ascii_of_string s) as [|c cs]; [discriminate|].
  apply andb_true_iff in Hs. destruct Hs as [Hc Hcs].
  simpl app. rewrite (lex_start_identifier _ _ Hc).
  apply (lex_identifier_run cs [c] rest Hcs Hrest).
Qed.

Lemma lex_path :
  forall segments,
    identifier_path segments = true ->
    lex Start (list_ascii_of_string (String.concat "." segments))
    = Ok (path_tokens segments).
Proof.
  intros segments H. destruct segments as [|s segments]; [discriminate|].
  unfold identifier_path in H. revert s H.
  induction segments as [|x segments IH]; intros s H;
    simpl in H; apply andb_true_iff in H; destruct H as [Hs Hrest].
  - simpl String.concat.
    rewrite <- (app_nil_r (list_ascii_of_string s)).
    rewrite (lex_identifier s [] Hs I). reflexivity.
  - change (String.concat "." (s :: x :: segments))
      with (s ++ "." ++ String.concat "." (x :: segments))%string.
    rewrite list_ascii_app.
    change (list_ascii_of_string ("." ++ String.concat "." (x :: segments)))
      with ("."%char :: list_ascii_of_string (String.concat "." (x :: segments))).
    rewrite (lex_identifier s _ Hs); [|reflexivity].
    change (lex Start ("."%char :: ?l)) with (emit TDot (lex Start l)).
    rewrite (IH x Hrest). reflexivity.
Qed.

Lemma path_not_empty :
  forall segments,
    identifier_path segments = true ->
    String.concat "." segments <> EmptyString.
Proof.
  intros segments H. destruct segments as [|s segments]; [discriminate|].
  simpl in H. apply andb_true_iff in H. destruct H as [Hs _].
  unfold identifier in Hs.
  destruct s as [|c s]; [discriminate|].
  destruct segments; simpl; discriminate.
Qed.

Lemma tokenize_path :
  forall segments,
    identifier_path segments = true ->
    tokenize (String.concat "." segments) = Ok (path_tokens segments).
Proof.
  intros segments H. unfold tokenize.
  pose proof (path_not_empty segments H) as Hne.
  destruct (String.concat "." segments) eqn:E; [congruence|].
  rewrite <- E. apply lex_path. assumption.
Qed.

Lemma parse_fields_path :
  forall segments,
    parse_fields (flat_map (fun x => [TDot; TIdent x]) segments)
    = Some (map Field segments).
Proof.
  induction segments as [|x segments IH]; simpl; [reflexivity|].
  rewrite IH. reflexivity.
Qed.

Lemma parse_path :
  forall s segments,
    parse (path_tokens (s :: segments))
    = Ok (match segments with
          | [] => Field s
          | _ => Subexpression (map Field (s :: segments))
          end).
Proof.
  intros s segments. destruct segments as [|x segments]; [reflexivity|].
  unfold path_tokens.
  change (flat_map (fun x => [TDot; TIdent x]) (x :: segments))
    with (TDot :: TIdent x :: flat_map (fun x => [TDot; TIdent x]) segments).
  unfold parse.
  change (parse_fields (TDot :: TIdent x :: ?l))
    with (match parse_fields l with
          | Some fs => Some (Field x :: fs)
          | None => None
          end).
  rewrite parse_fields_path. reflexivity.
Qed.

Lemma visit_fields :
  forall segments v,
    visit (Subexpression (map Field segments)) v = nested_lookup segments v.
Proof.
  assert (Hnull : forall segments,
             visit (Subexpression (map Field segments)) JNull = JNull).
  { induction segments as [|k segments IH]; [reflexivity|]. exact IH. }
  induction segments as [|k segments IH]; intros v; [reflexivity|].
  change (visit (Subexpression (map Field (k :: segments))) v)
    with (visit (Subexpression (map Field segments)) (visit_field k v)).
  destruct v as [| | | | |kv]; try apply Hnull.
  simpl visit_field. simpl nested_lookup.
  destruct (assoc k kv); [apply IH | apply Hnull].
Qed.

(** A nested query on a path of identifiers is the tolerant lookup. *)
Lemma search_path :
  forall segments v,
    identifier_path segments = true ->
    search (String.concat "." segments) v = Ok (nested_lookup segments v).
Proof.
  intros segments v H. unfold search.
  rewrite (tokenize_path segments H).
  destruct segments as [|s segments]; [discriminate|].
  cbn [bind]. rewrite parse_path. cbn [bind]. f_equal.
  destruct segments as [|x segments].
  - destruct v; reflexivity.
  - apply visit_fields.
Qed.

Lemma unresolved_is_null :
  forall segments v,
    resolves segments v = false -> nested_lookup segments v = JNull.
Proof.
  induction segments as [|k segments IH]; intros v H; simpl in *;
    [discriminate|].
  destruct v; try reflexivity.
  destruct (assoc k fields); [apply IH; assumption | reflexivity].
Qed.

End PathFacts.

(** ** Row extraction: nested selectors *)

(** C5, as stated, fails: a segment that is not an identifier makes the
    query itself fail, here on the character [#]. *)
Lemma nested_selector_query_fails :
  single_df scalars_only listing_without_seller
    (Some [Path ["seller"; "level#id"]]) None
  = Raise LexerError.
Proof. reflexivity. Qed.

(** C5, amended: for a selector whose segments are identifiers, the column
    is named by the segments joined with underscores and the value is found
    by following the segments, without failing; when a key on the way is
    missing the column is assigned null. *)
Theorem nested_selector_is_tolerant :
  forall segments result,
    identifier_path segments = true ->
    feature_label (Path segments) = String.concat "_" segments /\
    feature_value (Path segments) result = Ok (nested_lookup segments result) /\
    (resolves segments result = false ->
     forall listlike_cell df,
       add_features listlike_cell [Path segments] result df
       = Ok (map (set_cell (String.concat "_" segments) JNull) df)).
Proof.
  intros segments result H.
  assert (Hv : feature_value (Path segments) result
               = Ok (nested_lookup segments result))
    by (apply PathFacts.search_path; assumption).
  split; [reflexivity|]. split; [exact Hv|].
  intros Hmiss listlike_cell df.
  unfold add_features. rewrite Hv.
  rewrite (PathFacts.unresolved_is_null _ _ Hmiss). reflexivity.
Qed.

(** The scenario of C5: the seller's reputation level of a listing that has
    no seller. *)
Lemma nested_selector_is_tolerant_witness :
  feature_value (Path ["seller"; "seller_reputation"; "level_id"])
    listing_without_seller = Ok JNull
  /\ feature_value (Path ["seller"; "seller_reputation"; "level_id"])
       listing_with_seller = Ok (JStr "5_green")
  /\ add_features scalars_only
       [Path ["seller"; "seller_reputation"; "level_id"]]
       listing_without_seller empty_frame
     = Ok [[("seller_seller_reputation_level_id", JNull)]].
Proof.
  pose proof (nested_selector_is_tolerant
                ["seller"; "seller_reputation"; "level_id"]
                listing_without_seller eq_refl) as (_ & Hv & Hdf).
  split; [exact Hv|].
  split; [|exact (Hdf eq_refl scalars_only empty_frame)].
  exact (proj1 (proj2 (nested_selector_is_tolerant
                         ["seller"; "seller_reputation"; "level_id"]
                         listing_with_seller eq_refl))).
Defined.

(** ** Row extraction: direct selectors *)

Section DirectLookup.

Variable listlike_cell : json -> option json.

Lemma getitem_absent :
  forall result field,
    has_field result field = false -> raises (getitem result field).
Proof.
  intros result field H. unfold raises, getitem.
  destruct result; try (eexists; reflexivity).
  unfold has_field, has_key in H.
  destruct (assoc field fields); [discriminate | eexists; reflexivity].
Qed.

Lemma setitem_settles :
  forall df name v,
    (exists df', setitem listlike_cell df name v = Ok df') \/
    raises (setitem listlike_cell df name v).
Proof.
  intros df name v. unfold setitem, raises.
  destruct v; try (left; eexists; reflexivity);
    destruct (listlike_cell _);
    (left; eexists; reflexivity) || (right; eexists; reflexivity).
Qed.

Lemma add_features_needs_fields :
  forall features result field df df',
    In (Name field) features ->
    add_features listlike_cell features result df = Ok df' ->
    has_field result field = true.
Proof.
  induction features as [|f features IH];
    intros result field df df' Hin H; [contradiction|].
  simpl in H.
  destruct (feature_value f result) as [v| |] eqn:Ev; simpl in H;
    try discriminate.
  destruct (setitem listlike_cell df (feature_label f) v) as [df1| |];
    simpl in H; try discriminate.
  destruct Hin as [-> | Hin]; [|eapply IH; eassumption].
  destruct (has_field result field) eqn:Hf; [reflexivity|].
  destruct (getitem_absent _ _ Hf) as (e & He).
  simpl in Ev. congruence.
Qed.

Lemma add_features_raises :
  forall features result field df,
    In (Name field) features ->
    has_field result field = false ->
    forallb plain_feature features = true ->
    raises (add_features listlike_cell features result df).
Proof.
  induction features as [|f features IH];
    intros result field df Hin Hf Hplain; [contradiction|].
  simpl in Hplain. apply andb_true_iff in Hplain.
  destruct Hplain as [Hp Hplain]. simpl.
  assert (Hv : (exists v, feature_value f result = Ok v) \/
               (f = Name field /\ raises (feature_value f result)) \/
               raises (feature_value f result)).
  { destruct f as [name|segments]; simpl.
    - unfold raises, getitem.
      destruct result; try (right; right; eexists; reflexivity).
      destruct (assoc name fields);
        [left; eexists; reflexivity | right; right; eexists; reflexivity].
    - left. eexists. apply PathFacts.search_path. assumption. }
  destruct Hv as [(v & Hv) | [(_ & e & He) | (e & He)]];
    try (rewrite He; exists e; reflexivity).
  rewrite Hv. simpl.
  destruct (setitem_settles df (feature_label f) v) as [(df' & Hs) | (e & Hs)];
    rewrite Hs; simpl; [|exists e; reflexivity].
  destruct Hin as [-> | Hin]; [|eapply IH; eassumption].
  destruct (getitem_absent _ _ Hf) as (e & He). simpl in Hv. congruence.
Qed.

End DirectLookup.

(** C6: when a direct selector among the features names a field the record
    does not have, [single_df] returns no row; with the nested selectors
    inside the modelled fragment, it raises. *)
Theorem single_df_missing_field_raises :
  forall listlike_cell result features attributes field,
    In (Name field) (or_default features default_features) ->
    has_field result field = false ->
    (forall df, single_df listlike_cell result features attributes <> Ok df) /\
    (forallb plain_feature (or_default features default_features) = true ->
     raises (single_df listlike_cell result features attributes)).
Proof.
  intros listlike_cell result features attributes field Hin Hf. split.
  - intros df H. unfold single_df in H.
    destruct (add_features _ _ _ _) as [df1| |] eqn:E; simpl in H;
      try discriminate.
    pose proof (add_features_needs_fields _ _ _ _ _ _ Hin E). congruence.
  - intros Hplain. unfold single_df.
    destruct (add_features_raises listlike_cell _ _ _ empty_frame Hin Hf Hplain)
      as (e & He).
    rewrite He. exists e. reflexivity.
Qed.

(** A listing without [seller] asked for its price and its currency, then
    for a field it does not have. *)
Lemma single_df_missing_field_raises_witness :
  raises (single_df scalars_only listing_without_seller
            (Some [Name "price"; Name "currency_id"; Name "sold_quantity"])
            None).
Proof.
  apply (single_df_missing_field_raises scalars_only listing_without_seller
           (Some [Name "price"; Name "currency_id"; Name "sold_quantity"])
           None "sold_quantity").
  - simpl. right; right; left; reflexivity.
  - reflexivity.
  - reflexivity.
Defined.

(** ** The attribute query *)

Module AttributeFacts.
Import JMESPath.

Lemma unescape_plain_char :
  forall c rest,
    Ascii.eqb c "\" = false ->
    unescape_quote (c :: rest) = c :: unescape_quote rest.
Proof.
  intros c rest H.
  destruct c as [[|] [|] [|] [|] [|] [|] [|] [|]];
    try discriminate H; reflexivity.
Qed.

Lemma unescape_plain :
  forall cs, forallb plain_char cs = true -> unescape_quote cs = cs.
Proof.
  induction cs as [|c cs IH]; intros H; [reflexivity|].
  simpl in H. apply andb_true_iff in H. destruct H as [Hc Hcs].
  unfold plain_char in Hc. apply andb_true_iff in Hc. destruct Hc as [_ Hb].
  apply negb_true_iff in Hb.
  rewrite (unescape_plain_char _ _ Hb), (IH Hcs). reflexivity.
Qed.

(** Inside a raw string literal the lexer runs to the closing quote. *)
Lemma lex_raw_run :
  forall cs buff rest,
    forallb plain_char cs = true ->
    lex (InRaw buff) (cs ++ "'"%char :: rest)
    = emit (raw_token (buff ++ cs)) (lex Start rest).
Proof.
  induction cs as [|c cs IH]; intros buff rest H.
  - rewrite app_nil_r. reflexivity.
  - simpl in H. apply andb_true_iff in H. destruct H as [Hc Hcs].
    unfold plain_char in Hc. apply andb_true_iff in Hc.
    destruct Hc as [Hq Hb].
    apply negb_true_iff in Hq. apply negb_true_iff in Hb.
    simpl. rewrite Hq, Hb. rewrite (IH (buff ++ [c]) rest Hcs).
    rewrite <- app_assoc. reflexivity.
Qed.

Lemma lex_query_prefix :
  forall rest,
    lex Start (list_ascii_of_string "attributes[?id=='" ++ rest)
    = emit (TIdent "attributes")
        (emit TFilter (emit (TIdent "id") (emit TEq (lex (InRaw []) rest)))).
Proof. intros rest. reflexivity. Qed.

Lemma tokenize_query :
  forall attribute_id,
    plain_literal attribute_id = true ->
    tokenize ("attributes[?id=='" ++ attribute_id ++ "'].value_name | [0]")
    = Ok [TIdent "attributes"; TFilter; TIdent "id"; TEq; TRaw attribute_id;
          TRbracket; TDot; TIdent "value_name"; TPipe; TLbracket; TNumber 0;
          TRbracket].
Proof.
  intros attribute_id H. unfold tokenize.
  change ("attributes[?id=='" ++ attribute_id ++ "'].value_name | [0]")%string
    with (String "a"
            ("ttributes[?id=='" ++ attribute_id ++ "'].value_name | [0]")).
  cbv iota.
  change (String "a"
            ("ttributes[?id=='" ++ attribute_id ++ "'].value_name | [0]"))
    with ("attributes[?id=='" ++ (attribute_id ++ "'].value_name | [0]"))%string.
  rewrite !PathFacts.list_ascii_app.
  rewrite lex_query_prefix.
  change (list_ascii_of_string "'].value_name | [0]")
    with ("'"%char :: list_ascii_of_string "].value_name | [0]").
  rewrite (lex_raw_run _ [] _ H).
  unfold raw_token. simpl app.
  rewrite (unescape_plain _ H), string_of_list_ascii_of_string.
  reflexivity.
Qed.

Lemma equals_string :
  forall v s,
    equals v (JStr s)
    = match v with JStr t => String.eqb t s | _ => false end.
Proof.
  intros v s. unfold equals.
  destruct v; simpl; try reflexivity.
  rewrite andb_false_r. reflexivity.
Qed.

Lemma filter_condition :
  forall attribute_id entry,
    negb (is_false (visit (ComparatorEq (Field "id") (Literal (JStr attribute_id)))
                      entry))
    = has_id entry attribute_id.
Proof.
  intros attribute_id entry. simpl visit. rewrite equals_string.
  unfold has_id, member.
  destruct (visit_field "id" entry); try reflexivity.
  destruct (String.eqb s attribute_id); reflexivity.
Qed.

Lemma first_of_projection :
  forall attribute_id entries,
    nth 0
      (filter (fun current => negb (is_null current))
         (map (visit (Field "value_name"))
            (filter (fun entry => has_id entry attribute_id) entries)))
      JNull
    = first_display_value attribute_id entries.
Proof.
  intros attribute_id. induction entries as [|entry entries IH];
    [reflexivity|].
  simpl filter at 2. simpl first_display_value.
  destruct (has_id entry attribute_id); [|exact IH].
  simpl map. simpl filter. unfold member.
  change (visit (Field "value_name") entry)
    with (visit_field "value_name" entry).
  destruct (visit_field "value_name" entry); simpl; try reflexivity.
  exact IH.
Qed.

End AttributeFacts.

(** C7, as stated, fails: the projection drops the null display values
    before the first element is taken, so the answer is not always the
    display value of the first matching entry. *)
Lemma attribute_query_skips_null_values :
  get_specific_attribute "BRAND" listing_two_brands = Ok (JStr "Acme")
  /\ over_attributes (first_entry_value "BRAND") listing_two_brands = JNull.
Proof. split; reflexivity. Qed.

(** C7, amended: for an identifier without quote or backslash, the query
    returns the first display value that is not null among the entries of
    the attribute list whose id equals the identifier, and null when there
    is none or the record has no attribute list. *)
Theorem get_specific_attribute_first_value :
  forall attribute_id result,
    plain_literal attribute_id = true ->
    get_specific_attribute attribute_id result
    = Ok (over_attributes (first_display_value attribute_id) result).
Proof.
  intros attribute_id result H.
  unfold get_specific_attribute, JMESPath.search.
  rewrite (AttributeFacts.tokenize_query attribute_id H).
  cbn [bind JMESPath.parse]. f_equal.
  unfold over_attributes, member.
  change (JMESPath.visit
            (JMESPath.Pipe
               [JMESPath.FilterProjection (JMESPath.Field "attributes")
                  (JMESPath.Field "value_name")
                  (JMESPath.ComparatorEq (JMESPath.Field "id")
                     (JMESPath.Literal (JStr attribute_id)));
                JMESPath.IndexExpression [JMESPath.Identity; JMESPath.Index 0]])
            result)
    with (JMESPath.visit_index 0
            match JMESPath.visit_field "attributes" result with
            | JArr base =>
                JArr (filter (fun current => negb (JMESPath.is_null current))
                        (map (JMESPath.visit (JMESPath.Field "value_name"))
                           (filter
                              (fun element =>
                                 negb (JMESPath.is_false
                                         (JMESPath.visit
                                            (JMESPath.ComparatorEq
                                               (JMESPath.Field "id")
                                               (JMESPath.Literal (JStr attribute_id)))
                                            element)))
                              base)))
            | _ => JNull
            end).
  destruct (JMESPath.visit_field "attributes" result); try reflexivity.
  unfold JMESPath.visit_index.
  rewrite (filter_ext _ (fun entry => has_id entry attribute_id)
             (AttributeFacts.filter_condition attribute_id)).
  apply AttributeFacts.first_of_projection.
Qed.

(** The scenario of C7: the model of a listing that only names its brand. *)
Lemma get_specific_attribute_first_value_witness :
  get_specific_attribute "MODEL" listing_acme = Ok JNull.
Proof.
  exact (get_specific_attribute_first_value "MODEL" listing_acme eq_refl).
Defined.

(** ** Enrichment, row by row *)

Section ColumnStages.

Lemma Forall2_compose :
  forall (A : Type) (R S : A -> A -> Prop) xs ys zs,
    Forall2 R xs ys -> Forall2 S ys zs ->
    Forall2 (fun x z => exists y, R x y /\ S y z) xs zs.
Proof.
  intros A R S xs ys zs HR. revert zs.
  induction HR as [|x y xs ys Hxy _ IH]; intros zs HS;
    inversion HS; subst; constructor; eauto.
Qed.

(** [df[name] = df.apply(f, axis=1)] assigns to each row its own value. *)
Lemma set_column_applied :
  forall f name df vs,
    apply_rows f df = Ok vs ->
    Forall2 (fun r r' => exists v, f r = Ok v /\ r' = set_cell name v r)
            df (set_column name vs df).
Proof.
  intros f name. induction df as [|r df IH]; intros vs H; simpl in H.
  - injection H as <-. constructor.
  - destruct (f r) as [v| |] eqn:Ev; simpl in H; try discriminate.
    destruct (apply_rows f df) as [vs'| |] eqn:E; simpl in H; try discriminate.
    injection H as <-. simpl. constructor; [eauto | apply IH; reflexivity].
Qed.

Lemma fill_column_rows :
  forall name v df,
    Forall2 (fun r r' => r' = set_cell name v r) df (fill_column name v df).
Proof.
  intros name v. induction df as [|r df IH]; simpl; constructor; auto.
Qed.

(** [df.loc[df.column.isna(), name] = v] *)
Lemma set_where_applied :
  forall g name v df mask,
    apply_rows g df = Ok mask ->
    Forall2 (fun r r' =>
               exists m, g r = Ok m /\
                         r' = if isna m then set_cell name v r else r)
            df (set_where mask name v df).
Proof.
  intros g name v. induction df as [|r df IH]; intros mask H; simpl in H.
  - injection H as <-. constructor.
  - destruct (g r) as [m| |] eqn:Em; simpl in H; try discriminate.
    destruct (apply_rows g df) as [ms| |] eqn:E; simpl in H; try discriminate.
    injection H as <-. simpl. constructor; [eauto | apply IH; reflexivity].
Qed.

End ColumnStages.

(** The column-wise function computes [enrich_row] on every row. *)
Lemma calculate_discount_metrics_rows :
  forall mapper_currency nan_nulls df table,
    calculate_discount_metrics mapper_currency nan_nulls df = Ok table ->
    Forall2 (fun r r' => enrich_row mapper_currency nan_nulls r = Ok r') df table.
Proof.
  intros mapper nan df table H. unfold calculate_discount_metrics in H.
  destruct df as [|r0 df0]; [discriminate|].
  remember (r0 :: df0) as df eqn:Edf. clear Edf r0 df0.
  destruct (apply_rows (to_usd mapper (nan "price") "price") df)
    as [v1| |] eqn:E1; simpl in H; try discriminate.
  destruct (apply_rows _ (fill_column _ _ _)) as [v2| |] eqn:E2;
    simpl in H; try discriminate.
  destruct (apply_rows (price_difference nan) _) as [v3| |] eqn:E3;
    simpl in H; try discriminate.
  destruct (apply_rows (to_usd mapper true "descuento_precio") _)
    as [v4| |] eqn:E4; simpl in H; try discriminate.
  injection H as <-.
  pose proof (set_column_applied _ "price_USD" _ _ E1) as S1.
  pose proof (fill_column_rows "discount" (JNum 1%Q)
                (set_column "price_USD" v1 df)) as S2.
  pose proof (set_where_applied _ "discount" (JNum 0%Q) _ _ E2) as S3.
  pose proof (set_column_applied _ "descuento_precio" _ _ E3) as S4.
  pose proof (set_column_applied _ "descuento_USD" _ _ E4) as S5.
  pose proof (Forall2_compose _ _ _ _ _ _
                (Forall2_compose _ _ _ _ _ _
                   (Forall2_compose _ _ _ _ _ _
                      (Forall2_compose _ _ _ _ _ _ S1 S2) S3) S4) S5) as S.
  eapply Forall2_impl; [|exact S].
  intros r r' (r4 & (r3 & (r2 & (r1 & (p & Hp & ->) & ->) & (o & Ho & ->))
                     & (d & Hd & ->)) & (u & Hu & ->)).
  unfold enrich_row. rewrite Hp. cbn [bind]. rewrite Ho. cbn [bind].
  rewrite Hd. cbn [bind]. rewrite Hu. reflexivity.
Qed.

Lemma attr_assoc :
  forall (r : row) name v, attr r name = Ok v <-> assoc name r = Some v.
Proof.
  intros r name v. unfold attr. destruct (assoc name r); split; congruence.
Qed.

(** Nothing divided by a rate is nothing. *)
Lemma zero_in_usd :
  forall rate u,
    (x <- as_operand true (JNum 0%Q) ;;
     y <- as_operand false rate ;;
     quotient <- truediv x y ;;
     Ok (of_operand quotient)) = Ok u ->
    u = JNum 0%Q.
Proof.
  intros rate u H. cbn [as_operand as_number bind] in H.
  destruct rate as [| b | q | | |]; cbn in H; try discriminate.
  - destruct (Qeq_bool (if b then 1%Q else 0%Q) 0%Q); cbn in H;
      [discriminate|].
    injection H as <-. reflexivity.
  - destruct (Qeq_bool q 0%Q); cbn in H; [discriminate|].
    injection H as <-. reflexivity.
Qed.

Lemma set_cell_twice :
  forall name v w (r : row),
    set_cell name v (set_cell name w r) = set_cell name v r.
Proof.
  intros name v w r. induction r as [|[k x] r IH]; simpl.
  - rewrite String.eqb_refl. reflexivity.
  - destruct (String.eqb name k) eqn:E; simpl; rewrite E;
      [reflexivity | f_equal; exact IH].
Qed.

(** What a successful [enrich_row] has computed. *)
Lemma enrich_row_inv :
  forall mapper nan r r',
    enrich_row mapper nan r = Ok r' ->
    exists p o d u,
      assoc "original_price" r = Some o /\
      r' = set_cell "descuento_USD" u
             (set_cell "descuento_precio" d
                (set_cell "discount" (JNum (if isna o then 0%Q else 1%Q))
                   (set_cell "price_USD" p r))) /\
      (isna o = true -> d = JNum 0%Q /\ u = JNum 0%Q).
Proof.
  intros mapper nan r r' H. unfold enrich_row in H.
  destruct (to_usd mapper (nan "price") "price" r) as [p| |];
    cbn [bind] in H; try discriminate.
  destruct (attr _ "original_price") as [o| |] eqn:Eo; cbn [bind] in H;
    try discriminate.
  destruct (price_difference nan _) as [d| |] eqn:Ed; cbn [bind] in H;
    try discriminate.
  destruct (to_usd mapper true "descuento_precio" _) as [u| |] eqn:Eu;
    cbn [bind] in H; try discriminate.
  injection H as <-.
  exists p, o, d, u. split; [|split].
  - apply attr_assoc in Eo.
    rewrite !assoc_set_cell_other in Eo by discriminate. exact Eo.
  - destruct (isna o); [|reflexivity].
    rewrite set_cell_twice. reflexivity.
  - intros Hna. rewrite Hna in Ed, Eu.
    assert (Hd : d = JNum 0%Q).
    { unfold price_difference in Ed.
      rewrite (proj2 (attr_assoc _ _ _) (assoc_set_cell_same _ _ _)) in Ed.
      cbn in Ed. congruence. }
    split; [exact Hd|]. subst d.
    unfold to_usd in Eu.
    destruct (attr _ "currency_id") as [c| |]; cbn [bind] in Eu;
      try discriminate.
    rewrite (proj2 (attr_assoc _ _ _) (assoc_set_cell_same _ _ _)) in Eu.
    destruct (negb (py_eq c (JStr "USD"))); cbn [bind] in Eu;
      [|congruence].
    destruct (rate_of mapper c); cbn [bind] in Eu; try discriminate.
    eapply zero_in_usd; eassumption.
Qed.

(** ** The discount flag *)

(** C8: in every row of a table the enricher returns, the flag is 1 when
    the original price is not null and 0 when it is, and with the flag at 0
    both discount amounts are 0. *)
Theorem discount_flag_follows_original_price :
  forall mapper_currency nan_nulls df table,
    calculate_discount_metrics mapper_currency nan_nulls df = Ok table ->
    Forall (fun r =>
              exists original flag,
                assoc "original_price" r = Some original /\
                assoc "discount" r = Some flag /\
                (flag = JNum 1%Q \/ flag = JNum 0%Q) /\
                (flag = JNum 1%Q <-> isna original = false) /\
                (flag = JNum 0%Q ->
                 assoc "descuento_precio" r = Some (JNum 0%Q) /\
                 assoc "descuento_USD" r = Some (JNum 0%Q)))
           table.
Proof.
  intros mapper nan df table H.
  apply calculate_discount_metrics_rows in H.
  induction H as [|r r' df table Hr _ IH]; constructor; [|exact IH].
  apply enrich_row_inv in Hr.
  destruct Hr as (p & o & d & u & Ho & -> & Hzero).
  exists o, (JNum (if isna o then 0%Q else 1%Q)).
  split; [|split; [|split; [|split]]].
  - rewrite !assoc_set_cell_other by discriminate. exact Ho.
  - rewrite !assoc_set_cell_other by discriminate.
    apply assoc_set_cell_same.
  - destruct (isna o); [right | left]; reflexivity.
  - destruct (isna o); split; intros E; try reflexivity; discriminate E.
  - intros E. destruct (isna o); [|discriminate E].
    destruct (Hzero eq_refl) as [-> ->]. split.
    + rewrite assoc_set_cell_other by discriminate.
      apply assoc_set_cell_same.
    + apply assoc_set_cell_same.
Qed.

(** The three listings of [priced_table] under the rates of [rates]. *)
Lemma discount_flag_follows_original_price_witness :
  exists table,
    calculate_discount_metrics rates none_cells priced_table = Ok table /\
    map (assoc "discount") table
    = [Some (JNum 1%Q); Some (JNum 0%Q); Some (JNum 0%Q)] /\
    Forall (fun r =>
              exists original flag,
                assoc "original_price" r = Some original /\
                assoc "discount" r = Some flag /\
                (flag = JNum 1%Q \/ flag = JNum 0%Q) /\
                (flag = JNum 1%Q <-> isna original = false) /\
                (flag = JNum 0%Q ->
                 assoc "descuento_precio" r = Some (JNum 0%Q) /\
                 assoc "descuento_USD" r = Some (JNum 0%Q)))
           table.
Proof.
  eexists. split; [reflexivity|]. split; [reflexivity|].
  apply (discount_flag_follows_original_price rates none_cells priced_table).
  reflexivity.
Defined.

(** ** Missing rates *)

Lemma to_usd_settles :
  forall mapper nan column r, to_usd mapper nan column r <> Beyond.
Proof.
  intros mapper nan column r. unfold to_usd, attr.
  destruct (assoc "currency_id" r) as [c|]; cbn [bind]; [|discriminate].
  destruct (negb (py_eq c (JStr "USD"))); cbn [bind];
    destruct (assoc column r) as [a|]; cbn [bind]; try discriminate.
  destruct (rate_of mapper c) as [b| |] eqn:Eb; cbn [bind];
    try discriminate.
  - destruct (as_operand nan a) as [x| |] eqn:Ex; cbn [bind];
      try discriminate.
    + destruct (as_operand false b) as [y| |] eqn:Ey; cbn [bind];
        try discriminate.
      * destruct (truediv x y) as [q| |] eqn:Eq; cbn [bind];
          try discriminate.
        unfold truediv in Eq. destruct y; [|discriminate].
        destruct (Qeq_bool q 0%Q); discriminate.
      * destruct b; cbn in Ey; discriminate.
    + destruct a; cbn in Ex; try discriminate. destruct nan; discriminate.
  - unfold rate_of in Eb. destruct c; try discriminate.
    destruct (assoc s mapper); discriminate.
Qed.

Lemma apply_rows_raises :
  forall f df r,
    (forall x, f x <> Beyond) ->
    In r df -> raises (f r) -> raises (apply_rows f df).
Proof.
  intros f df r Hf. induction df as [|x df IH]; intros Hin Hr; [contradiction|].
  simpl. destruct (f x) as [v|e|] eqn:Ex; cbn [bind].
  - destruct Hin as [-> | Hin].
    + destruct Hr as (e & He). congruence.
    + destruct (IH Hin Hr) as (e & He). rewrite He. exists e. reflexivity.
  - exists e. reflexivity.
  - exfalso. exact (Hf x Ex).
Qed.

(** C9: a row whose currency is not ["USD"] and is not bound in the rate
    map makes the enricher raise: nothing stands in for the missing rate. *)
Theorem missing_rate_raises :
  forall mapper_currency nan_nulls df r currency,
    In r df ->
    assoc "currency_id" r = Some currency ->
    py_eq currency (JStr "USD") = false ->
    is_rate_key mapper_currency currency = false ->
    raises (calculate_discount_metrics mapper_currency nan_nulls df).
Proof.
  intros mapper nan df r currency Hin Hc Husd Hkey.
  assert (Hrow : raises (to_usd mapper (nan "price") "price" r)).
  { unfold to_usd, attr. rewrite Hc. cbn [bind]. rewrite Husd. cbn [negb].
    destruct (assoc "price" r); cbn [bind]; [|eexists; reflexivity].
    unfold rate_of. unfold is_rate_key, has_key in Hkey.
    destruct currency; try (eexists; reflexivity).
    destruct (assoc s mapper); [discriminate | eexists; reflexivity]. }
  destruct (apply_rows_raises _ df r (to_usd_settles mapper _ "price") Hin Hrow)
    as (e & He).
  unfold calculate_discount_metrics.
  destruct df as [|x df]; [contradiction|].
  rewrite He. exists e. reflexivity.
Qed.

(** A listing in reais under a snapshot that only rates the peso. *)
Lemma missing_rate_raises_witness :
  calculate_discount_metrics rates none_cells unrated_table = Raise KeyError
  /\ raises (calculate_discount_metrics rates none_cells unrated_table).
Proof.
  split; [reflexivity|].
  apply (missing_rate_raises rates none_cells unrated_table
           (priced_row 9%Q "BRL" JNull) (JStr "BRL")).
  - right; left; reflexivity.
  - reflexivity.
  - reflexivity.
  - reflexivity.
Defined.

(** * Further properties *)

(** ** The fetcher, page after page *)

Section Pages.

Context {World : Type}.
Variable http : string -> World -> outcome json * World.
Variable py_str : json -> string.

Lemma serves_app :
  forall a b w w',
    serves http w (a ++ b) w' ->
    exists w1, serves http w a w1 /\ serves http w1 b w'.
Proof.
  induction a as [|[url response] a IH]; intros b w w' H; simpl in H.
  - exists w. split; [constructor | assumption].
  - inversion H; subst.
    match goal with Hs : serves _ _ (a ++ b) _ |- _ =>
      destruct (IH _ _ _ Hs) as (wm & Ha & Hb) end.
    exists wm. split; [econstructor; eassumption | assumption].
Qed.

Lemma page_requests_app :
  forall country_id category a b i,
    page_requests country_id category i (a ++ b)
    = page_requests country_id category i a
        ++ page_requests country_id category (i + List.length a) b.
Proof.
  intros country_id category. induction a as [|x a IH]; intros b i; simpl.
  - rewrite Nat.add_0_r. reflexivity.
  - rewrite IH. do 3 f_equal. lia.
Qed.

(** The inner loop keeps going over pages that carry results and no
    error. *)
Lemma page_loop_collects :
  forall country_id category pages responses remaining i all_results s w1,
    Forall2 nonempty_page responses pages ->
    serves http (world s) (page_requests country_id category i responses) w1 ->
    page_loop World http py_str country_id category
      (List.length pages + remaining) i all_results s
    = page_loop World http py_str country_id category remaining
        (i + List.length pages) (all_results ++ map JArr pages)
        {| world := w1; stdout := stdout s |}.
Proof.
  intros country_id category pages responses remaining i all_results s w1 Hpages.
  revert i all_results s.
  induction Hpages as [|response items responses pages Hpage _ IH];
    intros i all_results s Hserves; simpl in Hserves; inversion Hserves; subst.
  - simpl. rewrite Nat.add_0_r, app_nil_r. destruct s; reflexivity.
  - simpl.
    match goal with H : http _ _ = _ |- _ => rewrite H end.
    simpl. rewrite (inspect_nonempty_page _ _ Hpage).
    match goal with H : serves _ ?w0 _ _ |- _ =>
      rewrite (IH (S i) (all_results ++ [JArr items])
                 {| world := w0; stdout := stdout s |} H) end.
    simpl. rewrite <- app_assoc. do 2 f_equal. lia.
Qed.

Lemma inspect_error_page :
  forall response items error,
    error_page response items error ->
    inspect_page response = Ok (StopWithError error).
Proof.
  intros response items error (kv & -> & Hres & Hne & Herr & Hnull).
  unfold inspect_page; simpl. rewrite Hres; simpl.
  destruct items as [|x xs]; [congruence|]. simpl. rewrite Herr.
  destruct error; congruence.
Qed.

Lemma inspect_page_without_results :
  forall response,
    page_without_results response -> inspect_page response = Raise TypeError.
Proof.
  intros response (kv & -> & Hres).
  unfold inspect_page; simpl. rewrite Hres. reflexivity.
Qed.

(** The split of a run of pages closed by one more page. *)
Lemma serves_last :
  forall country_id category responses pages last w w',
    Forall2 nonempty_page responses pages ->
    serves http w (page_requests country_id category 0 (responses ++ [last])) w' ->
    exists w1,
      serves http w (page_requests country_id category 0 responses) w1 /\
      http (search_url country_id category (50 * List.length pages)) w1
      = (Ok last, w').
Proof.
  intros country_id category responses pages last w w' Hpages H.
  rewrite page_requests_app in H. apply serves_app in H.
  destruct H as (w1 & Ha & Hb). exists w1. split; [assumption|].
  simpl in Hb. inversion Hb; subst.
  match goal with Hn : serves _ _ [] _ |- _ => inversion Hn; subst end.
  rewrite <- (Forall2_length Hpages). assumption.
Qed.

End Pages.

(** X1: a page that carries results and an error, after k pages without
    error, makes the fetcher print one diagnostic naming the category key,
    the offset 50k and the error, drop the results of that page, keep the k
    earlier pages and go on with the next country. *)
Theorem fetch_error_page_reported :
  forall (World : Type) (http : string -> World -> outcome json * World)
         (py_str : json -> string)
         (country_id category : string) (limit : Z)
         (pages : list (list json)) (responses : list json)
         (last : json) (items : list json) (error : json)
         (s : io World) (w' : World),
    Forall2 nonempty_page responses pages ->
    error_page last items error ->
    (Z.of_nat (List.length pages) < limit)%Z ->
    serves http (world s)
      (page_requests country_id category 0 (responses ++ [last])) w' ->
    forall rest all_results,
      country_loop World http py_str (country_id :: rest) category limit
        all_results s
      = country_loop World http py_str rest category limit
          (all_results ++ map JArr pages)
          {| world := w';
             stdout := stdout s
                       ++ [diagnostic py_str country_id category
                             (50 * List.length pages) error] |}.
Proof.
  intros World http py_str country_id category limit pages responses last
         items error s w' Hpages Hlast Hlimit Hserves rest all_results.
  destruct (serves_last http _ _ _ _ _ _ _ Hpages Hserves) as (w1 & Hrun & Hget).
  assert (Hsplit : Z.to_nat limit
                   = (List.length pages + S (Z.to_nat limit - List.length pages - 1))%nat)
    by lia.
  cbn [country_loop]. rewrite Hsplit.
  rewrite (page_loop_collects http py_str _ _ _ _ _ _ _ _ _ Hpages Hrun).
  cbn [page_loop Nat.add world stdout]. rewrite Hget.
  cbn [bind]. rewrite (inspect_error_page _ _ _ Hlast).
  reflexivity.
Qed.

(** A page of listings, then one reported with an error. *)
Lemma fetch_error_page_reported_witness :
  Mock.fetch (Countries ["MLA"]) "1055" 5
    [nth 0 three_pages JNull; page_with_error]
  = (Ok [listing "MLA1"; listing "MLA2"],
     {| world := {| Mock.pending := [];
                    Mock.requested := [search_url "MLA" "1055" 0;
                                       search_url "MLA" "1055" 50] |};
        stdout := ["MLA1055 on the offset 50 returned: forbidden"] |}).
Proof.
  unfold Mock.fetch, get_category_country_list.
  rewrite (fetch_error_page_reported Mock.state Mock.get Mock.str
             "MLA" "1055" 5
             [[listing "MLA1"; listing "MLA2"]]
             [nth 0 three_pages JNull] page_with_error
             [listing "MLA9"] (JStr "forbidden")
             (Mock.script [nth 0 three_pages JNull; page_with_error])
             {| Mock.pending := [];
                Mock.requested := [search_url "MLA" "1055" 0;
                                   search_url "MLA" "1055" 50] |}).
  - reflexivity.
  - apply Forall2_cons; [|apply Forall2_nil].
    eexists. split; [reflexivity|]. split; [reflexivity|].
    split; [discriminate | left; reflexivity].
  - eexists. split; [reflexivity|]. split; [reflexivity|].
    split; [discriminate|]. split; [reflexivity | discriminate].
  - simpl; lia.
  - simpl. repeat (eapply serves_cons; [reflexivity|]). apply serves_nil.
Defined.

(** X2: when the first pages of a country, as many as the limit, all carry
    results and no error, the fetcher asks for exactly those pages, keeps
    them all and goes on with the next country without a further request. *)
Theorem fetch_stops_at_limit :
  forall (World : Type) (http : string -> World -> outcome json * World)
         (py_str : json -> string)
         (country_id category : string) (limit : Z)
         (pages : list (list json)) (responses : list json)
         (s : io World) (w' : World),
    Forall2 nonempty_page responses pages ->
    List.length pages = Z.to_nat limit ->
    serves http (world s) (page_requests country_id category 0 responses) w' ->
    forall rest all_results,
      country_loop World http py_str (country_id :: rest) category limit
        all_results s
      = country_loop World http py_str rest category limit
          (all_results ++ map JArr pages)
          {| world := w'; stdout := stdout s |}.
Proof.
  intros World http py_str country_id category limit pages responses s w'
         Hpages Hlimit Hserves rest all_results.
  simpl. rewrite <- Hlimit.
  rewrite <- (Nat.add_0_r (List.length pages)) at 1.
  rewrite (page_loop_collects http py_str _ _ _ _ _ _ _ _ _ Hpages Hserves).
  reflexivity.
Qed.

(** Two pages under a limit of two: the third answer is never asked for. *)
Lemma fetch_stops_at_limit_witness :
  Mock.fetch (Countries ["MLA"]) "1055" 2 three_pages
  = (Ok [listing "MLA1"; listing "MLA2"; listing "MLA3"],
     {| world := {| Mock.pending := [nth 2 three_pages JNull];
                    Mock.requested := [search_url "MLA" "1055" 0;
                                       search_url "MLA" "1055" 50] |};
        stdout := [] |}).
Proof.
  unfold Mock.fetch, get_category_country_list.
  rewrite (fetch_stops_at_limit Mock.state Mock.get Mock.str
             "MLA" "1055" 2
             [[listing "MLA1"; listing "MLA2"]; [listing "MLA3"]]
             [nth 0 three_pages JNull; nth 1 three_pages JNull]
             (Mock.script three_pages)
             {| Mock.pending := [nth 2 three_pages JNull];
                Mock.requested := [search_url "MLA" "1055" 0;
                                   search_url "MLA" "1055" 50] |}).
  - reflexivity.
  - apply Forall2_cons; [|apply Forall2_cons; [|apply Forall2_nil]].
    + eexists. split; [reflexivity|]. split; [reflexivity|].
      split; [discriminate | left; reflexivity].
    + eexists. split; [reflexivity|]. split; [reflexivity|].
      split; [discriminate | right; reflexivity].
  - reflexivity.
  - simpl. repeat (eapply serves_cons; [reflexivity|]). apply serves_nil.
Defined.

(** X3: with a limit of zero or less the fetcher makes no request and
    prints nothing, and returns the empty list, whatever the countries. *)
Theorem fetch_without_pages :
  forall (World : Type) (http : string -> World -> outcome json * World)
         (py_str : json -> string)
         (countries : countries_arg) (category : string) (limit : Z)
         (s : io World),
    (limit <= 0)%Z ->
    get_category_country_list World http py_str countries category limit s
    = (Ok [], s).
Proof.
  intros World http py_str countries category limit s Hlimit.
  assert (Hloop : forall site_ids,
             country_loop World http py_str site_ids category limit [] s
             = (Ok [], s)).
  { induction site_ids as [|c site_ids IH]; [reflexivity|].
    simpl. replace (Z.to_nat limit) with 0%nat by lia. simpl. exact IH. }
  unfold get_category_country_list. rewrite Hloop. reflexivity.
Qed.

(** Three countries and a limit of zero. *)
Lemma fetch_without_pages_witness :
  Mock.fetch (Countries ["MLA"; "MLB"; "MLM"]) "1055" 0 three_pages
  = (Ok [], Mock.script three_pages).
Proof.
  apply (fetch_without_pages Mock.state Mock.get Mock.str). lia.
Defined.

(** ** The fetcher, country after country *)

Section Countries.

Context {World : Type}.
Variable http : string -> World -> outcome json * World.
Variable py_str : json -> string.

Lemma country_loop_tour :
  forall category limit plan w w',
    tour http category limit w plan w' ->
    forall s rest all_results,
      world s = w ->
      country_loop World http py_str (map fst plan ++ rest) category limit
        all_results s
      = country_loop World http py_str rest category limit
          (all_results
             ++ List.concat (map (fun stop => map JArr (snd stop)) plan))
          {| world := w'; stdout := stdout s |}.
Proof.
  intros category limit plan w w' Htour.
  induction Htour as
      [w
      |w country_id pages responses last w1 plan w2 Hpages Hlast Hlimit Hserves _ IH
      |w country_id pages responses w1 plan w2 Hpages Hlimit Hserves _ IH];
    intros s rest all_results Hw; subst w.
  - simpl. rewrite app_nil_r. destruct s; reflexivity.
  - cbn [map fst app country_loop].
    rewrite (page_loop_until_empty http py_str country_id category pages
               responses last (Z.to_nat limit) 0 all_results s w1
               Hpages Hlast ltac:(lia) Hserves).
    rewrite (IH {| world := w1; stdout := stdout s |} rest _ eq_refl).
    cbn [map snd List.concat stdout]. rewrite app_assoc. reflexivity.
  - cbn [map fst app country_loop]. rewrite <- Hlimit.
    rewrite <- (Nat.add_0_r (List.length pages)) at 1.
    rewrite (page_loop_collects http py_str _ _ _ _ _ _ _ _ _ Hpages Hserves).
    cbn [page_loop].
    rewrite (IH {| world := w1; stdout := stdout s |} rest _ eq_refl).
    cbn [map snd List.concat stdout]. rewrite app_assoc. reflexivity.
Qed.

Lemma flatten_pages_then :
  forall pages rest,
    flatten (map JArr pages ++ rest)
    = (items <- flatten rest ;; Ok (List.concat pages ++ items)).
Proof.
  induction pages as [|p pages IH]; intros rest; simpl.
  - destruct (flatten rest); reflexivity.
  - rewrite IH. destruct (flatten rest); simpl; [|reflexivity|reflexivity].
    rewrite app_assoc. reflexivity.
Qed.

Lemma flatten_tour :
  forall plan,
    flatten (List.concat (map (fun stop => map JArr (snd stop)) plan))
    = Ok (tour_items plan).
Proof.
  induction plan as [|[country_id pages] plan IH]; [reflexivity|].
  cbn [map snd List.concat]. rewrite flatten_pages_then, IH. reflexivity.
Qed.

End Countries.

(** X4: the items come back country after country in the order of the
    argument, page after page within a country and in the order of each
    page; a country's pages end with its first empty page or with the
    limit, and nothing is printed. *)
Theorem fetch_concatenates_countries :
  forall (World : Type) (http : string -> World -> outcome json * World)
         (py_str : json -> string) (category : string) (limit : Z)
         (plan : list (string * list (list json))) (s : io World) (w' : World),
    tour http category limit (world s) plan w' ->
    get_category_country_list World http py_str (Countries (map fst plan))
      category limit s
    = (Ok (tour_items plan), {| world := w'; stdout := stdout s |}).
Proof.
  intros World http py_str category limit plan s w' Htour.
  unfold get_category_country_list.
  rewrite <- (app_nil_r (map fst plan)).
  rewrite (country_loop_tour http py_str _ _ _ _ _ Htour s [] [] eq_refl).
  cbn [country_loop app]. rewrite flatten_tour. reflexivity.
Qed.

(** Two countries under a limit of two: an empty second page ends the
    first, the limit ends the second. *)
Lemma fetch_concatenates_countries_witness :
  Mock.fetch (Countries ["MLA"; "MLB"]) "1055" 2 two_countries
  = (Ok [listing "MLA1"; listing "MLB1"; listing "MLB2"; listing "MLB3"],
     {| world := {| Mock.pending := [];
                    Mock.requested := [search_url "MLA" "1055" 0;
                                       search_url "MLA" "1055" 50;
                                       search_url "MLB" "1055" 0;
                                       search_url "MLB" "1055" 50] |};
        stdout := [] |}).
Proof.
  refine (fetch_concatenates_countries Mock.state Mock.get Mock.str "1055" 2
            [("MLA", [[listing "MLA1"]]);
             ("MLB", [[listing "MLB1"; listing "MLB2"]; [listing "MLB3"]])]
            (Mock.script two_countries) _ _).
  eapply tour_empty_page with
    (responses := [nth 0 two_countries JNull])
    (last := nth 1 two_countries JNull).
  - apply Forall2_cons; [|apply Forall2_nil].
    eexists. split; [reflexivity|]. split; [reflexivity|].
    split; [discriminate | left; reflexivity].
  - eexists. split; reflexivity.
  - simpl; lia.
  - simpl. repeat (eapply serves_cons; [reflexivity|]). apply serves_nil.
  - eapply tour_limit with
      (responses := [nth 2 two_countries JNull; nth 3 two_countries JNull]).
    + apply Forall2_cons; [|apply Forall2_cons; [|apply Forall2_nil]];
        (eexists; split; [reflexivity|]; split; [reflexivity|];
         split; [discriminate | left; reflexivity]).
    + reflexivity.
    + simpl. repeat (eapply serves_cons; [reflexivity|]). apply serves_nil.
    + apply tour_done.
Defined.

(** X5: an answer without a [results] member makes the fetcher raise
    [TypeError], on whichever page and for whichever country it comes: the
    pages collected until then, in that country and in the ones before, are
    not returned, and the countries after it are not asked for. *)
Theorem fetch_page_without_results_raises :
  forall (World : Type) (http : string -> World -> outcome json * World)
         (py_str : json -> string) (category : string) (limit : Z)
         (plan : list (string * list (list json)))
         (country_id : string) (rest : list string)
         (pages : list (list json)) (responses : list json) (last : json)
         (s : io World) (w1 w' : World),
    tour http category limit (world s) plan w1 ->
    Forall2 nonempty_page responses pages ->
    page_without_results last ->
    (Z.of_nat (List.length pages) < limit)%Z ->
    serves http w1
      (page_requests country_id category 0 (responses ++ [last])) w' ->
    get_category_country_list World http py_str
      (Countries (map fst plan ++ country_id :: rest)) category limit s
    = (Raise TypeError, {| world := w'; stdout := stdout s |}).
Proof.
  intros World http py_str category limit plan country_id rest pages responses
         last s w1 w' Htour Hpages Hlast Hlimit Hserves.
  unfold get_category_country_list.
  rewrite (country_loop_tour http py_str _ _ _ _ _ Htour s _ [] eq_refl).
  destruct (serves_last http _ _ _ _ _ _ _ Hpages Hserves) as (w2 & Hrun & Hget).
  assert (Hsplit : Z.to_nat limit
                   = (List.length pages + S (Z.to_nat limit - List.length pages - 1))%nat)
    by lia.
  cbn [country_loop]. rewrite Hsplit.
  rewrite (page_loop_collects http py_str _ _ _ _ _ _ _
             {| world := w1; stdout := stdout s |} _ Hpages Hrun).
  cbn [page_loop Nat.add world stdout]. rewrite Hget.
  cbn [bind]. rewrite (inspect_page_without_results _ Hlast).
  reflexivity.
Qed.

(** A refusal on the second page of the second country. *)
Lemma fetch_page_without_results_raises_witness :
  Mock.fetch (Countries ["MLA"; "MLB"; "MLM"]) "1055" 2
    [nth 0 two_countries JNull; nth 1 two_countries JNull;
     nth 2 two_countries JNull; refusal]
  = (Raise TypeError,
     {| world := {| Mock.pending := [];
                    Mock.requested := [search_url "MLA" "1055" 0;
                                       search_url "MLA" "1055" 50;
                                       search_url "MLB" "1055" 0;
                                       search_url "MLB" "1055" 50] |};
        stdout := [] |}).
Proof.
  refine (fetch_page_without_results_raises Mock.state Mock.get Mock.str
            "1055" 2 [("MLA", [[listing "MLA1"]])] "MLB" ["MLM"]
            [[listing "MLB1"; listing "MLB2"]] [nth 2 two_countries JNull]
            refusal
            (Mock.script [nth 0 two_countries JNull; nth 1 two_countries JNull;
                          nth 2 two_countries JNull; refusal])
            {| Mock.pending := [nth 2 two_countries JNull; refusal];
               Mock.requested := [search_url "MLA" "1055" 0;
                                  search_url "MLA" "1055" 50] |}
            _ _ _ _ _ _).
  - eapply tour_empty_page with
      (responses := [nth 0 two_countries JNull])
      (last := nth 1 two_countries JNull).
    + apply Forall2_cons; [|apply Forall2_nil].
      eexists. split; [reflexivity|]. split; [reflexivity|].
      split; [discriminate | left; reflexivity].
    + eexists. split; reflexivity.
    + simpl; lia.
    + simpl. repeat (eapply serves_cons; [reflexivity|]). apply serves_nil.
    + apply tour_done.
  - apply Forall2_cons; [|apply Forall2_nil].
    eexists. split; [reflexivity|]. split; [reflexivity|].
    split; [discriminate | left; reflexivity].
  - eexists. split; reflexivity.
  - simpl; lia.
  - simpl. repeat (eapply serves_cons; [reflexivity|]). apply serves_nil.
Defined.

(** ** What a row holds *)

(** The attribute query on an identifier that needs no escaping. *)
Lemma attribute_query_value :
  forall attribute_id result,
    plain_literal attribute_id = true ->
    get_specific_attribute attribute_id result
    = Ok (over_attributes (first_display_value attribute_id) result).
Proof.
  intros attribute_id result H.
  unfold get_specific_attribute, JMESPath.search.
  rewrite (AttributeFacts.tokenize_query attribute_id H).
  cbn [bind JMESPath.parse]. f_equal.
  unfold over_attributes, member.
  change (JMESPath.visit
            (JMESPath.Pipe
               [JMESPath.FilterProjection (JMESPath.Field "attributes")
                  (JMESPath.Field "value_name")
                  (JMESPath.ComparatorEq (JMESPath.Field "id")
                     (JMESPath.Literal (JStr attribute_id)));
                JMESPath.IndexExpression [JMESPath.Identity; JMESPath.Index 0]])
            result)
    with (JMESPath.visit_index 0
            match JMESPath.visit_field "attributes" result with
            | JArr base =>
                JArr (filter (fun current => negb (JMESPath.is_null current))
                        (map (JMESPath.visit (JMESPath.Field "value_name"))
                           (filter
                              (fun element =>
                                 negb (JMESPath.is_false
                                         (JMESPath.visit
                                            (JMESPath.ComparatorEq
                                               (JMESPath.Field "id")
                                               (JMESPath.Literal (JStr attribute_id)))
                                            element)))
                              base)))
            | _ => JNull
            end).
  destruct (JMESPath.visit_field "attributes" result); try reflexivity.
  unfold JMESPath.visit_index.
  rewrite (filter_ext _ (fun entry => has_id entry attribute_id)
             (AttributeFacts.filter_condition attribute_id)).
  apply AttributeFacts.first_of_projection.
Qed.


Section Cells.

Variable listlike_cell : json -> option json.

Lemma setitem_scalar :
  forall df name v,
    is_scalar v = true ->
    setitem listlike_cell df name v = Ok (map (set_cell name v) df).
Proof.
  intros df name v H. destruct v; try discriminate H; reflexivity.
Qed.

Lemma add_features_cells :
  forall features result (r0 : row) df,
    add_features listlike_cell features result [r0] = Ok df ->
    NoDup (map feature_label features) ->
    exists r,
      df = [r] /\
      (forall name, ~ In name (map feature_label features) ->
                    assoc name r = assoc name r0) /\
      (forall f v, In f features -> feature_value f result = Ok v ->
                   is_scalar v = true ->
                   assoc (feature_label f) r = Some v).
Proof.
  induction features as [|f features IH]; intros result r0 df H Hnd.
  - injection H as <-. exists r0.
    split; [reflexivity|]. split; [reflexivity | intros ? ? []].
  - simpl in H. inversion Hnd as [|? ? Hnotin Hnd']; subst.
    destruct (feature_value f result) as [v| |] eqn:Ev; simpl in H;
      try discriminate.
    destruct (setitem listlike_cell [r0] (feature_label f) v) as [df1| |] eqn:Es;
      simpl in H; try discriminate.
    destruct (setitem_one_row _ _ _ _ _ Es) as (cell & ->).
    destruct (IH _ _ _ H Hnd') as (r & -> & Hkeep & Hcells).
    exists r. split; [reflexivity|]. split.
    + intros name Hname. rewrite Hkeep.
      * apply assoc_set_cell_other. intros ->. apply Hname. left; reflexivity.
      * intros Hin. apply Hname. right; assumption.
    + intros g w [<- | Hin] Hg Hw.
      * rewrite (Hkeep _ Hnotin).
        rewrite Hg in Ev. injection Ev as <-.
        rewrite (setitem_scalar _ _ _ Hw) in Es. injection Es as <-.
        apply assoc_set_cell_same.
      * eapply Hcells; eassumption.
Qed.

Lemma add_attributes_cells :
  forall attributes result (r0 : row) df,
    add_attributes listlike_cell attributes result [r0] = Ok df ->
    NoDup attributes ->
    exists r,
      df = [r] /\
      (forall name, ~ In name attributes -> assoc name r = assoc name r0) /\
      (forall a v, In a attributes -> get_specific_attribute a result = Ok v ->
                   is_scalar v = true -> assoc a r = Some v).
Proof.
  induction attributes as [|a attributes IH]; intros result r0 df H Hnd.
  - injection H as <-. exists r0.
    split; [reflexivity|]. split; [reflexivity | intros ? ? []].
  - simpl in H. inversion Hnd as [|? ? Hnotin Hnd']; subst.
    destruct (get_specific_attribute a result) as [v| |] eqn:Ev; simpl in H;
      try discriminate.
    destruct (setitem listlike_cell [r0] a v) as [df1| |] eqn:Es;
      simpl in H; try discriminate.
    destruct (setitem_one_row _ _ _ _ _ Es) as (cell & ->).
    destruct (IH _ _ _ H Hnd') as (r & -> & Hkeep & Hcells).
    exists r. split; [reflexivity|]. split.
    + intros name Hname. rewrite Hkeep.
      * apply assoc_set_cell_other. intros ->. apply Hname. left; reflexivity.
      * intros Hin. apply Hname. right; assumption.
    + intros b w [<- | Hin] Hb Hw.
      * rewrite (Hkeep _ Hnotin).
        rewrite Hb in Ev. injection Ev as <-.
        rewrite (setitem_scalar _ _ _ Hw) in Es. injection Es as <-.
        apply assoc_set_cell_same.
      * eapply Hcells; eassumption.
Qed.

Lemma add_features_succeeds :
  forall features result df,
    (forall f, In f features ->
               exists v, feature_value f result = Ok v /\ is_scalar v = true) ->
    exists df', add_features listlike_cell features result df = Ok df'.
Proof.
  induction features as [|f features IH]; intros result df H; simpl.
  - eexists; reflexivity.
  - destruct (H f (or_introl eq_refl)) as (v & -> & Hv). simpl.
    rewrite (setitem_scalar _ _ _ Hv). simpl.
    apply IH. intros g Hg. apply H. right; assumption.
Qed.

Lemma add_attributes_succeeds :
  forall attributes result df,
    (forall a, In a attributes ->
               exists v, get_specific_attribute a result = Ok v /\
                         is_scalar v = true) ->
    exists df', add_attributes listlike_cell attributes result df = Ok df'.
Proof.
  induction attributes as [|a attributes IH]; intros result df H; simpl.
  - eexists; reflexivity.
  - destruct (H a (or_introl eq_refl)) as (v & -> & Hv). simpl.
    rewrite (setitem_scalar _ _ _ Hv). simpl.
    apply IH. intros b Hb. apply H. right; assumption.
Qed.

End Cells.

(** X6: row extraction returns a row when the record has every field named
    by a direct selector, the nested selectors are paths of identifiers, the
    attribute identifiers have no quote or backslash, and every value found
    is a scalar. *)
Theorem single_df_succeeds :
  forall listlike_cell result features attributes,
    (forall field,
        In (Name field) (or_default features default_features) ->
        exists v, getitem result field = Ok v /\ is_scalar v = true) ->
    (forall segments,
        In (Path segments) (or_default features default_features) ->
        identifier_path segments = true /\
        is_scalar (nested_lookup segments result) = true) ->
    (forall attrib,
        In attrib (or_default attributes default_attributes) ->
        plain_literal attrib = true /\
        is_scalar (over_attributes (first_display_value attrib) result) = true) ->
    exists r, single_df listlike_cell result features attributes = Ok [r].
Proof.
  intros listlike_cell result features attributes Hnames Hpaths Hattrs.
  unfold single_df.
  destruct (add_features_succeeds listlike_cell
              (or_default features default_features) result empty_frame)
    as (df1 & E1).
  { intros [field|segments] Hin.
    - exact (Hnames field Hin).
    - destruct (Hpaths segments Hin) as [Hid Hsc].
      exists (nested_lookup segments result). split; [|assumption].
      apply PathFacts.search_path. assumption. }
  rewrite E1. simpl.
  destruct (add_features_one_row _ _ _ _ _ E1) as (r1 & -> & _).
  destruct (add_attributes_succeeds listlike_cell
              (or_default attributes default_attributes) result [r1])
    as (df2 & E2).
  { intros attrib Hin. destruct (Hattrs attrib Hin) as [Hplain Hsc].
    eexists. split; [|exact Hsc].
    apply attribute_query_value. assumption. }
  rewrite E2.
  destruct (add_attributes_one_row _ _ _ _ _ E2) as (r & -> & _).
  exists r. reflexivity.
Qed.

Lemma NoDup_app_disjoint :
  forall (A : Type) (a b : list A) x,
    NoDup (a ++ b) -> In x a -> In x b -> False.
Proof.
  intros A a b x. induction a as [|y a IH]; intros Hnd Ha Hb; [contradiction|].
  simpl in Hnd. inversion Hnd as [|? ? Hnotin Hnd']; subst.
  destruct Ha as [-> | Ha]; [|exact (IH Hnd' Ha Hb)].
  apply Hnotin, in_or_app. right; assumption.
Qed.

(** A listing with every default field, under the default selectors. *)
Lemma single_df_succeeds_witness :
  exists r,
    single_df scalars_only (full_listing 100%Q (JNum 150%Q)) None None = Ok [r].
Proof.
  apply (single_df_succeeds scalars_only (full_listing 100%Q (JNum 150%Q))
           None None).
  - intros field Hin. simpl in Hin.
    repeat match goal with H : _ \/ _ |- _ => destruct H as [H|H] end;
      try discriminate; try contradiction;
      injection Hin as <-; eexists; split; reflexivity.
  - intros segments Hin. simpl in Hin.
    repeat match goal with H : _ \/ _ |- _ => destruct H as [H|H] end;
      try discriminate; try contradiction;
      injection Hin as <-; split; reflexivity.
  - intros attrib Hin. simpl in Hin.
    repeat match goal with H : _ \/ _ |- _ => destruct H as [H|H] end;
      try contradiction; subst attrib; split; reflexivity.
Defined.

(** X7: when no two selectors and attributes share a label, the row that
    row extraction returns holds, under the label of each selector, the
    value the selector finds in the record and, under each attribute
    identifier, the value of the attribute query, provided the value is a
    scalar. *)
Theorem single_df_holds_values :
  forall listlike_cell result features attributes r,
    single_df listlike_cell result features attributes = Ok [r] ->
    NoDup (map feature_label (or_default features default_features)
             ++ or_default attributes default_attributes) ->
    (forall f v,
        In f (or_default features default_features) ->
        feature_value f result = Ok v -> is_scalar v = true ->
        assoc (feature_label f) r = Some v) /\
    (forall attrib v,
        In attrib (or_default attributes default_attributes) ->
        get_specific_attribute attrib result = Ok v -> is_scalar v = true ->
        assoc attrib r = Some v).
Proof.
  intros listlike_cell result features attributes r H Hnd.
  unfold single_df in H.
  destruct (add_features _ _ _ _) as [df1| |] eqn:E1; simpl in H;
    try discriminate.
  pose proof (NoDup_app_remove_r _ _ Hnd) as Hndf.
  pose proof (NoDup_app_remove_l _ _ Hnd) as Hnda.
  pose proof (fun x => NoDup_app_disjoint _ _ _ x Hnd) as Hdisj.
  destruct (add_features_cells _ _ _ _ _ E1 Hndf) as (r1 & -> & _ & Hcells1).
  destruct (add_attributes_cells _ _ _ _ _ H Hnda) as (r2 & Er & Hkeep & Hcells2).
  injection Er as <-. split.
  - intros f v Hin Hv Hsc. rewrite Hkeep.
    + eapply Hcells1; eassumption.
    + intros Hina. apply (Hdisj (feature_label f)); [|assumption].
      apply in_map. assumption.
  - exact Hcells2.
Qed.

(** The price, the reputation level of the seller and the brand of a
    listing, under the default selectors. *)
Lemma single_df_holds_values_witness :
  exists r,
    single_df scalars_only (full_listing 100%Q (JNum 150%Q)) None None = Ok [r] /\
    assoc "price" r = Some (JNum 100%Q) /\
    assoc "seller_seller_reputation_level_id" r = Some (JStr "5_green") /\
    assoc "address_state_name" r = Some JNull /\
    assoc "BRAND" r = Some (JStr "Acme").
Proof.
  eexists. split; [reflexivity|].
  match goal with
  | |- assoc _ ?r = _ /\ _ =>
      destruct (single_df_holds_values scalars_only
                  (full_listing 100%Q (JNum 150%Q)) None None r eq_refl)
        as [Hf Ha]
  end.
  - repeat (constructor; [simpl; intuition discriminate|]). constructor.
  - split; [exact (Hf (Name "price") _ ltac:(simpl; tauto) eq_refl eq_refl)|].
    split; [exact (Hf (Path ["seller"; "seller_reputation"; "level_id"]) _
                     ltac:(simpl; tauto) eq_refl eq_refl)|].
    split; [exact (Hf (Path ["address"; "state_name"]) _
                     ltac:(simpl; tauto) eq_refl eq_refl)|].
    exact (Ha "BRAND" _ ltac:(simpl; tauto) eq_refl eq_refl).
Defined.

(** ** Identifiers that need escaping *)

Lemma lex_raw_plain :
  forall cs buff rest,
    forallb plain_char cs = true ->
    JMESPath.lex (JMESPath.InRaw buff) (cs ++ rest)
    = JMESPath.lex (JMESPath.InRaw (buff ++ cs)) rest.
Proof.
  induction cs as [|c cs IH]; intros buff rest H.
  - rewrite app_nil_r. reflexivity.
  - simpl in H. apply andb_true_iff in H. destruct H as [Hc Hcs].
    unfold plain_char in Hc. apply andb_true_iff in Hc.
    destruct Hc as [Hq Hb].
    apply negb_true_iff in Hq. apply negb_true_iff in Hb.
    simpl. rewrite Hq, Hb. rewrite (IH (buff ++ [c]) rest Hcs).
    rewrite <- app_assoc. reflexivity.
Qed.

Lemma tokenize_query_chars :
  forall attribute_id,
    JMESPath.tokenize
      ("attributes[?id=='" ++ attribute_id ++ "'].value_name | [0]")
    = JMESPath.emit (JMESPath.TIdent "attributes")
        (JMESPath.emit JMESPath.TFilter
           (JMESPath.emit (JMESPath.TIdent "id")
              (JMESPath.emit JMESPath.TEq
                 (JMESPath.lex (JMESPath.InRaw [])
                    (list_ascii_of_string attribute_id
                       ++ list_ascii_of_string "'].value_name | [0]"))))).
Proof.
  intros attribute_id. unfold JMESPath.tokenize.
  change ("attributes[?id=='" ++ attribute_id ++ "'].value_name | [0]")%string
    with (String "a"
            ("ttributes[?id=='" ++ attribute_id ++ "'].value_name | [0]")).
  cbv iota.
  change (String "a"
            ("ttributes[?id=='" ++ attribute_id ++ "'].value_name | [0]"))
    with ("attributes[?id=='" ++ (attribute_id ++ "'].value_name | [0]"))%string.
  rewrite !PathFacts.list_ascii_app.
  apply AttributeFacts.lex_query_prefix.
Qed.

(** X8: the identifier is put between the quotes of the query as it is.
    One that ends in a single quote or in a backslash, after characters
    that are neither, leaves a string literal of the query open: the query
    raises [LexerError] whatever the record. *)
Theorem attribute_id_unescaped_raises :
  forall prefix result,
    plain_literal prefix = true ->
    get_specific_attribute (prefix ++ "'") result = Raise LexerError /\
    get_specific_attribute (prefix ++ "\") result = Raise LexerError.
Proof.
  intros prefix result H.
  unfold get_specific_attribute, JMESPath.search.
  rewrite !tokenize_query_chars, !PathFacts.list_ascii_app.
  rewrite <- !app_assoc.
  rewrite !(lex_raw_plain _ [] _ H). split; reflexivity.
Qed.

(** The brand asked for with a stray quote or backslash. *)
Lemma attribute_id_unescaped_raises_witness :
  get_specific_attribute "BRAND'" listing_acme = Raise LexerError /\
  get_specific_attribute "BRAND\" listing_acme = Raise LexerError.
Proof.
  exact (attribute_id_unescaped_raises "BRAND" listing_acme eq_refl).
Defined.

(** ** Assembly and failing records *)

Lemma basic_df_loop_prefix :
  forall listlike_cell good features attributes so_far,
    so_far <> [] ->
    Forall (fun r => labels r = row_labels features attributes) so_far ->
    Forall (fun result =>
              exists df, single_df listlike_cell result features attributes = Ok df)
           good ->
    exists rows,
      forall rest,
        basic_df_loop listlike_cell (good ++ rest) features attributes false
          (Some so_far)
        = basic_df_loop listlike_cell rest features attributes false
            (Some (so_far ++ rows)).
Proof.
  intros listlike_cell.
  induction good as [|result good IH];
    intros features attributes so_far Hne Hlabels Hall.
  - exists []. intros rest. rewrite app_nil_r. reflexivity.
  - inversion Hall as [|? ? (df & Hdf) Hall']; subst.
    destruct (single_df_one_row _ _ _ _ _ Hdf) as (r & -> & Hr).
    destruct (IH features attributes (so_far ++ [r])) as (rows & Hrows).
    + destruct so_far; discriminate.
    + apply Forall_app. split; [assumption|]. constructor; [assumption|constructor].
    + assumption.
    + exists (r :: rows). intros rest. simpl. rewrite Hdf. simpl.
      rewrite (concat_same_labels (row_labels features attributes));
        try assumption;
        [| apply NoDup_row_labels | discriminate
         | constructor; [assumption|constructor]].
      specialize (Hrows rest). rewrite <- app_assoc in Hrows. exact Hrows.
Qed.

(** X9: the table is all or nothing.  When row extraction raises on a
    record and returns on the records before it, [basic_df] raises the same
    exception: the rows assembled so far are not returned and the records
    after it are not looked at. *)
Theorem basic_df_raises_with_record :
  forall listlike_cell good bad rest features attributes e,
    Forall (fun result =>
              exists df, single_df listlike_cell result features attributes = Ok df)
           good ->
    single_df listlike_cell bad features attributes = Raise e ->
    basic_df listlike_cell (good ++ bad :: rest) features attributes = Raise e.
Proof.
  intros listlike_cell good bad rest features attributes e Hgood Hbad.
  unfold basic_df. destruct good as [|result good].
  - simpl. rewrite Hbad. reflexivity.
  - inversion Hgood as [|? ? (df & Hdf) Hgood']; subst.
    destruct (single_df_one_row _ _ _ _ _ Hdf) as (r & -> & Hr).
    simpl. rewrite Hdf. simpl.
    destruct (basic_df_loop_prefix listlike_cell good features attributes [r])
      as (rows & Hrows);
      [discriminate | constructor; [assumption|constructor] | assumption |].
    specialize (Hrows (bad :: rest)). simpl in Hrows.
    match goal with
    | |- bind ?m _ = _ => replace m with (@Raise (option DataFrame) e)
    end; [reflexivity|].
    symmetry. etransitivity; [exact Hrows|]. rewrite Hbad. reflexivity.
Qed.

(** A listing without the default fields between two complete ones. *)
Lemma basic_df_raises_with_record_witness :
  basic_df scalars_only
    ([full_listing 100%Q (JNum 150%Q)]
       ++ listing_without_seller :: [full_listing 80%Q JNull])
    None None
  = Raise KeyError.
Proof.
  apply (basic_df_raises_with_record scalars_only).
  - apply Forall_cons; [eexists; reflexivity | apply Forall_nil].
  - reflexivity.
Defined.

(** ** The derived amounts *)

(** The four computations behind a row of an enriched table. *)
Lemma enrich_row_cells :
  forall mapper nan r r',
    enrich_row mapper nan r = Ok r' ->
    exists p o d u,
      to_usd mapper (nan "price") "price" r = Ok p /\
      assoc "original_price" r = Some o /\
      price_difference nan
        (set_cell "discount" (JNum (if isna o then 0%Q else 1%Q))
           (set_cell "price_USD" p r)) = Ok d /\
      to_usd mapper true "descuento_precio"
        (set_cell "descuento_precio" d
           (set_cell "discount" (JNum (if isna o then 0%Q else 1%Q))
              (set_cell "price_USD" p r))) = Ok u /\
      r' = set_cell "descuento_USD" u
             (set_cell "descuento_precio" d
                (set_cell "discount" (JNum (if isna o then 0%Q else 1%Q))
                   (set_cell "price_USD" p r))).
Proof.
  intros mapper nan r r' H. unfold enrich_row in H.
  destruct (to_usd mapper (nan "price") "price" r) as [p| |] eqn:Ep;
    cbn [bind] in H; try discriminate.
  destruct (attr _ "original_price") as [o| |] eqn:Eo; cbn [bind] in H;
    try discriminate.
  apply attr_assoc in Eo.
  rewrite !assoc_set_cell_other in Eo by discriminate.
  assert (Hrow : (if isna o
                  then set_cell "discount" (JNum 0%Q)
                         (set_cell "discount" (JNum 1%Q)
                            (set_cell "price_USD" p r))
                  else set_cell "discount" (JNum 1%Q) (set_cell "price_USD" p r))
                 = set_cell "discount" (JNum (if isna o then 0%Q else 1%Q))
                     (set_cell "price_USD" p r)).
  { destruct (isna o); [apply set_cell_twice | reflexivity]. }
  rewrite Hrow in H.
  destruct (price_difference nan _) as [d| |] eqn:Ed; cbn [bind] in H;
    try discriminate.
  destruct (to_usd mapper true "descuento_precio" _) as [u| |] eqn:Eu;
    cbn [bind] in H; try discriminate.
  injection H as <-. exists p, o, d, u. repeat split; assumption.
Qed.

(** X10: in a table the enricher returns, a row in dollars has its price
    as [price_USD] and its discount amount as [descuento_USD], unchanged. *)
Theorem usd_rows_are_not_converted :
  forall mapper_currency nan_nulls df table,
    calculate_discount_metrics mapper_currency nan_nulls df = Ok table ->
    Forall (fun r =>
              assoc "currency_id" r = Some (JStr "USD") ->
              assoc "price_USD" r = assoc "price" r /\
              assoc "descuento_USD" r = assoc "descuento_precio" r)
           table.
Proof.
  intros mapper nan df table H.
  apply calculate_discount_metrics_rows in H.
  induction H as [|r r' df table Hr _ IH]; constructor; [|exact IH].
  apply enrich_row_cells in Hr.
  destruct Hr as (p & o & d & u & Hp & Ho & Hd & Hu & ->).
  intros Hc. rewrite !assoc_set_cell_other in Hc by discriminate.
  unfold to_usd in Hp, Hu.
  rewrite (proj2 (attr_assoc _ _ _) Hc) in Hp. cbn in Hp.
  assert (Hc' : forall x y z,
             attr (set_cell "descuento_precio" x
                     (set_cell "discount" y (set_cell "price_USD" z r)))
                  "currency_id" = Ok (JStr "USD")).
  { intros. apply attr_assoc.
    rewrite !assoc_set_cell_other by discriminate. exact Hc. }
  rewrite Hc' in Hu. cbn in Hu.
  apply attr_assoc in Hp. apply attr_assoc in Hu. split.
  - rewrite !(assoc_set_cell_other _ "price") by discriminate.
    rewrite !(assoc_set_cell_other _ "price_USD") by discriminate.
    rewrite assoc_set_cell_same. symmetry. exact Hp.
  - rewrite assoc_set_cell_same.
    rewrite (assoc_set_cell_other _ "descuento_precio") by discriminate.
    symmetry. exact Hu.
Qed.

(** The listing in dollars of [priced_table]. *)
Lemma usd_rows_are_not_converted_witness :
  exists table,
    calculate_discount_metrics rates none_cells priced_table = Ok table /\
    map (assoc "price_USD") table
    = [Some (JNum (1 # 10)); Some (JNum 7%Q); Some (JNum (9 # 1000))] /\
    Forall (fun r =>
              assoc "currency_id" r = Some (JStr "USD") ->
              assoc "price_USD" r = assoc "price" r /\
              assoc "descuento_USD" r = assoc "descuento_precio" r)
           table.
Proof.
  eexists. split; [reflexivity|]. split; [reflexivity|].
  apply (usd_rows_are_not_converted rates none_cells priced_table).
  reflexivity.
Defined.

(** ** Failures of the enrichment *)

Lemma apply_rows_settles :
  forall f df, (forall x, f x <> Beyond) -> apply_rows f df <> Beyond.
Proof.
  intros f df Hf. induction df as [|x df IH]; simpl; [discriminate|].
  destruct (f x) eqn:Ex; cbn [bind]; [|discriminate|exact (fun _ => Hf x Ex)].
  destruct (apply_rows f df); cbn [bind]; [discriminate|discriminate|].
  exfalso. apply IH. reflexivity.
Qed.

Lemma Forall2_In_l :
  forall (A B : Type) (R : A -> B -> Prop) xs ys x,
    Forall2 R xs ys -> In x xs -> exists y, In y ys /\ R x y.
Proof.
  intros A B R xs ys x H. induction H as [|a b xs ys Hab _ IH]; intros Hin;
    [contradiction|].
  destruct Hin as [<- | Hin].
  - exists b. split; [left; reflexivity | assumption].
  - destruct (IH Hin) as (y & Hy & Hxy). exists y. split; [right|]; assumption.
Qed.

Lemma attr_settles : forall name r, attr r name <> Beyond.
Proof. intros name r. unfold attr. destruct (assoc name r); discriminate. Qed.

(** X12: a table in which some row has no [price], no [currency_id] or no
    [original_price] makes the enricher raise. *)
Theorem missing_column_raises :
  forall mapper_currency nan_nulls df r,
    In r df ->
    assoc "price" r = None \/ assoc "currency_id" r = None \/
    assoc "original_price" r = None ->
    raises (calculate_discount_metrics mapper_currency nan_nulls df).
Proof.
  intros mapper nan df r Hin Hmiss.
  unfold calculate_discount_metrics.
  destruct df as [|r0 df0]; [contradiction|].
  remember (r0 :: df0) as df eqn:Edf. clear Edf r0 df0.
  destruct (apply_rows (to_usd mapper (nan "price") "price") df)
    as [v1|e|] eqn:E1; cbn [bind].
  - assert (Ho : assoc "original_price" r = None).
    { destruct Hmiss as [Hp | [Hc | Ho]]; [| |exact Ho]; exfalso.
      - assert (Hr : raises (to_usd mapper (nan "price") "price" r)).
        { unfold to_usd, attr. rewrite Hp.
          destruct (assoc "currency_id" r) as [c|]; cbn [bind];
            [|eexists; reflexivity].
          destruct (negb (py_eq c (JStr "USD"))); cbn [bind];
            eexists; reflexivity. }
        destruct (apply_rows_raises _ df r (to_usd_settles mapper _ "price")
                    Hin Hr) as (e & He). congruence.
      - assert (Hr : raises (to_usd mapper (nan "price") "price" r)).
        { unfold to_usd, attr. rewrite Hc. eexists; reflexivity. }
        destruct (apply_rows_raises _ df r (to_usd_settles mapper _ "price")
                    Hin Hr) as (e & He). congruence. }
    pose proof (Forall2_compose _ _ _ _ _ _
                  (set_column_applied _ "price_USD" _ _ E1)
                  (fill_column_rows "discount" (JNum 1%Q)
                     (set_column "price_USD" v1 df))) as S.
    destruct (Forall2_In_l _ _ _ _ _ _ S Hin)
      as (r2 & Hin2 & r1 & (p & _ & ->) & ->).
    assert (Hr : raises (attr (set_cell "discount" (JNum 1%Q)
                                 (set_cell "price_USD" p r))
                              "original_price")).
    { unfold attr. rewrite !assoc_set_cell_other by discriminate.
      rewrite Ho. eexists; reflexivity. }
    destruct (apply_rows_raises
                (fun r => attr r "original_price") _ _
                (attr_settles "original_price") Hin2 Hr) as (e & He).
    rewrite He. exists e. reflexivity.
  - exists e. reflexivity.
  - exfalso.
    exact (apply_rows_settles _ df (to_usd_settles mapper _ "price") E1).
Qed.

(** A table assembled without the original price. *)
Lemma missing_column_raises_witness :
  calculate_discount_metrics rates none_cells bare_table = Raise AttributeError
  /\ raises (calculate_discount_metrics rates none_cells bare_table).
Proof.
  split; [reflexivity|].
  apply (missing_column_raises rates none_cells bare_table
           [("price", JNum 7%Q); ("currency_id", JStr "USD")]).
  - left; reflexivity.
  - right; right; reflexivity.
Defined.

(** X13: a row in a currency other than the dollar whose rate in the
    snapshot is zero or is not a number makes the enricher raise: no
    infinite or default amount is produced. *)
Theorem unusable_rate_raises :
  forall mapper_currency nan_nulls df r code rate,
    In r df ->
    assoc "currency_id" r = Some (JStr code) ->
    code <> "USD" ->
    assoc code mapper_currency = Some rate ->
    usable_rate rate = false ->
    raises (calculate_discount_metrics mapper_currency nan_nulls df).
Proof.
  intros mapper nan df r code rate Hin Hc Hcode Hrate Hbad.
  assert (Hrow : raises (to_usd mapper (nan "price") "price" r)).
  { unfold to_usd, attr. rewrite Hc. cbn [bind].
    replace (py_eq (JStr code) (JStr "USD")) with false
      by (symmetry; simpl; apply String.eqb_neq; assumption).
    cbn [negb].
    destruct (assoc "price" r) as [a|]; cbn [bind]; [|eexists; reflexivity].
    cbn [rate_of]. rewrite Hrate. cbn [bind].
    destruct (as_operand (nan "price") a) as [x|e|] eqn:Ex; cbn [bind].
    - destruct rate as [|b|q| | |]; cbn in Hbad |- *;
        try (eexists; reflexivity).
      + subst b. eexists; reflexivity.
      + apply negb_false_iff in Hbad. rewrite Hbad. eexists; reflexivity.
    - eexists; reflexivity.
    - exfalso. destruct a; cbn in Ex; try discriminate.
      destruct (nan "price"); discriminate. }
  destruct (apply_rows_raises _ df r (to_usd_settles mapper _ "price") Hin Hrow)
    as (e & He).
  unfold calculate_discount_metrics.
  destruct df as [|x df]; [contradiction|].
  rewrite He. exists e. reflexivity.
Qed.

(** A listing in reais under a snapshot that rates the real at zero. *)
Lemma unusable_rate_raises_witness :
  calculate_discount_metrics zero_rates none_cells unrated_table
  = Raise ZeroDivisionError
  /\ raises (calculate_discount_metrics zero_rates none_cells unrated_table).
Proof.
  split; [reflexivity|].
  apply (unusable_rate_raises zero_rates none_cells unrated_table
           (priced_row 9%Q "BRL" JNull) "BRL" (JNum 0%Q)).
  - right; left; reflexivity.
  - reflexivity.
  - discriminate.
  - reflexivity.
  - reflexivity.
Defined.

(** ** Enrichment of enriched and of joined tables *)

Lemma calculate_on_rows :
  forall mapper nan df,
    df <> [] ->
    calculate_discount_metrics mapper nan df = enrich_columns mapper nan df.
Proof. intros mapper nan df H. destruct df; [congruence | reflexivity]. Qed.

Lemma enrich_columns_cons :
  forall mapper nan r r' df table,
    enrich_row mapper nan r = Ok r' ->
    enrich_columns mapper nan df = Ok table ->
    enrich_columns mapper nan (r :: df) = Ok (r' :: table).
Proof.
  intros mapper nan r r' df table Hr Hdf.
  unfold enrich_columns in Hdf.
  destruct (apply_rows (to_usd mapper (nan "price") "price") df)
    as [v1| |] eqn:E1; cbn [bind] in Hdf; try discriminate.
  destruct (apply_rows _ (fill_column _ _ _)) as [v2| |] eqn:E2;
    cbn [bind] in Hdf; try discriminate.
  destruct (apply_rows (price_difference nan) _) as [v3| |] eqn:E3;
    cbn [bind] in Hdf; try discriminate.
  destruct (apply_rows (to_usd mapper true "descuento_precio") _)
    as [v4| |] eqn:E4; cbn [bind] in Hdf; try discriminate.
  injection Hdf as <-.
  unfold enrich_row in Hr.
  destruct (to_usd mapper (nan "price") "price" r) as [p| |] eqn:Ep;
    cbn [bind] in Hr; try discriminate.
  destruct (attr _ "original_price") as [o| |] eqn:Eo; cbn [bind] in Hr;
    try discriminate.
  destruct (price_difference nan _) as [d| |] eqn:Ed; cbn [bind] in Hr;
    try discriminate.
  destruct (to_usd mapper true "descuento_precio" _) as [u| |] eqn:Eu;
    cbn [bind] in Hr; try discriminate.
  injection Hr as <-.
  unfold enrich_columns.
  cbn [apply_rows]. rewrite Ep, E1.
  cbn [bind set_column fill_column map apply_rows]. rewrite Eo.
  unfold fill_column in E2. rewrite E2.
  cbn [bind set_where apply_rows]. rewrite Ed.
  unfold fill_column in E3. rewrite E3.
  cbn [bind set_column apply_rows]. rewrite Eu.
  unfold fill_column in E4. rewrite E4.
  reflexivity.
Qed.

Lemma enrich_columns_rows :
  forall mapper nan df table,
    Forall2 (fun r r' => enrich_row mapper nan r = Ok r') df table ->
    enrich_columns mapper nan df = Ok table.
Proof.
  intros mapper nan df table H.
  induction H as [|r r' df table Hr _ IH]; [reflexivity|].
  apply enrich_columns_cons; assumption.
Qed.

Lemma set_cell_id :
  forall name v (r : row), assoc name r = Some v -> set_cell name v r = r.
Proof.
  intros name v r. induction r as [|[k x] r IH]; intros H; simpl in *;
    [discriminate|].
  destruct (String.eqb name k) eqn:E.
  - injection H as ->. reflexivity.
  - rewrite (IH H). reflexivity.
Qed.

Lemma to_usd_ext :
  forall mapper nan column (a b : row),
    assoc "currency_id" a = assoc "currency_id" b ->
    assoc column a = assoc column b ->
    to_usd mapper nan column a = to_usd mapper nan column b.
Proof.
  intros mapper nan column a b Hc Hv. unfold to_usd, attr.
  rewrite Hc, Hv. reflexivity.
Qed.

Lemma price_difference_ext :
  forall nan (a b : row),
    assoc "discount" a = assoc "discount" b ->
    assoc "original_price" a = assoc "original_price" b ->
    assoc "price" a = assoc "price" b ->
    price_difference nan a = price_difference nan b.
Proof.
  intros nan a b Hd Ho Hp. unfold price_difference, attr.
  rewrite Hd, Ho, Hp. reflexivity.
Qed.

(** Enriching an enriched row changes nothing. *)
Lemma enrich_row_again :
  forall mapper nan r r',
    enrich_row mapper nan r = Ok r' -> enrich_row mapper nan r' = Ok r'.
Proof.
  intros mapper nan r r' H.
  apply enrich_row_cells in H.
  destruct H as (p & o & d & u & Hp & Ho & Hd & Hu & Er).
  set (f := JNum (if isna o then 0%Q else 1%Q)) in *.
  assert (Hcur : assoc "currency_id" r' = assoc "currency_id" r)
    by (rewrite Er, !assoc_set_cell_other by discriminate; reflexivity).
  assert (Hprice : assoc "price" r' = assoc "price" r)
    by (rewrite Er, !assoc_set_cell_other by discriminate; reflexivity).
  assert (Horig : assoc "original_price" r' = Some o)
    by (rewrite Er, !assoc_set_cell_other by discriminate; exact Ho).
  assert (Hpusd : assoc "price_USD" r' = Some p)
    by (rewrite Er, !assoc_set_cell_other by discriminate;
        apply assoc_set_cell_same).
  assert (Hflag : assoc "discount" r' = Some f)
    by (rewrite Er, !assoc_set_cell_other by discriminate;
        apply assoc_set_cell_same).
  assert (Hdp : assoc "descuento_precio" r' = Some d)
    by (rewrite Er, assoc_set_cell_other by discriminate;
        apply assoc_set_cell_same).
  assert (Hdu : assoc "descuento_USD" r' = Some u)
    by (rewrite Er; apply assoc_set_cell_same).
  assert (Hp' : to_usd mapper (nan "price") "price" r' = Ok p)
    by (rewrite <- Hp; apply to_usd_ext; assumption).
  assert (Hd' : price_difference nan r' = Ok d).
  { rewrite <- Hd. apply price_difference_ext.
    - rewrite Hflag. symmetry. apply assoc_set_cell_same.
    - rewrite Horig, !assoc_set_cell_other by discriminate.
      symmetry; exact Ho.
    - rewrite Hprice, !assoc_set_cell_other by discriminate. reflexivity. }
  assert (Hu' : to_usd mapper true "descuento_precio" r' = Ok u).
  { rewrite <- Hu. apply to_usd_ext.
    - rewrite Hcur, !assoc_set_cell_other by discriminate. reflexivity.
    - rewrite Hdp. symmetry. apply assoc_set_cell_same. }
  unfold enrich_row. rewrite Hp'. cbn [bind].
  rewrite (set_cell_id _ _ _ Hpusd).
  assert (Ho1 : attr (set_cell "discount" (JNum 1%Q) r') "original_price" = Ok o).
  { apply attr_assoc. rewrite assoc_set_cell_other by discriminate. exact Horig. }
  rewrite Ho1. cbn [bind].
  assert (Hrow : (if isna o
                  then set_cell "discount" (JNum 0%Q)
                         (set_cell "discount" (JNum 1%Q) r')
                  else set_cell "discount" (JNum 1%Q) r') = r').
  { subst f. destruct (isna o);
      [rewrite set_cell_twice|]; apply set_cell_id; exact Hflag. }
  rewrite Hrow, Hd'. cbn [bind].
  rewrite (set_cell_id _ _ _ Hdp), Hu'. cbn [bind].
  rewrite (set_cell_id _ _ _ Hdu). reflexivity.
Qed.

Lemma enriched_not_empty :
  forall mapper nan df table,
    calculate_discount_metrics mapper nan df = Ok table -> table <> [].
Proof.
  intros mapper nan df table H Ht. subst table.
  pose proof (calculate_discount_metrics_rows _ _ _ _ H) as Hrows.
  inversion Hrows; subst. discriminate H.
Qed.

(** X14: enriching a table the enricher returned returns it unchanged:
    the derived columns are recomputed to the values they have. *)
Theorem enrichment_idempotent :
  forall mapper_currency nan_nulls df table,
    calculate_discount_metrics mapper_currency nan_nulls df = Ok table ->
    calculate_discount_metrics mapper_currency nan_nulls table = Ok table.
Proof.
  intros mapper nan df table H.
  rewrite calculate_on_rows by (eapply enriched_not_empty; eassumption).
  apply enrich_columns_rows.
  apply calculate_discount_metrics_rows in H.
  induction H as [|r r' df table Hr _ IH]; constructor; [|exact IH].
  eapply enrich_row_again; eassumption.
Qed.

(** The table of three listings, enriched twice. *)
Lemma enrichment_idempotent_witness :
  exists table,
    calculate_discount_metrics rates none_cells priced_table = Ok table /\
    calculate_discount_metrics rates none_cells table = Ok table.
Proof.
  eexists. split; [reflexivity|].
  apply (enrichment_idempotent rates none_cells priced_table).
  reflexivity.
Defined.

(** X15: rows are enriched independently of each other: when the enricher
    returns on two tables, it returns on their rows put together the rows
    of the two results put together. *)
Theorem enrichment_of_joined_tables :
  forall mapper_currency nan_nulls a b ta tb,
    calculate_discount_metrics mapper_currency nan_nulls a = Ok ta ->
    calculate_discount_metrics mapper_currency nan_nulls b = Ok tb ->
    calculate_discount_metrics mapper_currency nan_nulls (a ++ b)
    = Ok (ta ++ tb).
Proof.
  intros mapper nan a b ta tb Ha Hb.
  assert (Hne : a ++ b <> []).
  { destruct a; [discriminate Ha | discriminate]. }
  rewrite (calculate_on_rows _ _ _ Hne).
  apply enrich_columns_rows, Forall2_app;
    apply calculate_discount_metrics_rows; assumption.
Qed.

(** The table of three listings as one listing and two. *)
Lemma enrichment_of_joined_tables_witness :
  exists ta tb,
    calculate_discount_metrics rates none_cells
      [priced_row 100%Q "ARS" (JNum 150%Q)] = Ok ta /\
    calculate_discount_metrics rates none_cells
      [priced_row 7%Q "USD" JNull; priced_row 9%Q "ARS" JNull] = Ok tb /\
    calculate_discount_metrics rates none_cells priced_table = Ok (ta ++ tb).
Proof.
  eexists. eexists. split; [reflexivity|]. split; [reflexivity|].
  apply (enrichment_of_joined_tables rates none_cells
           [priced_row 100%Q "ARS" (JNum 150%Q)]
           [priced_row 7%Q "USD" JNull; priced_row 9%Q "ARS" JNull]);
    reflexivity.
Defined.

(** ** What enrichment leaves alone, and what it overwrites *)

Lemma not_derived :
  ~ In "price" derived_labels /\ ~ In "currency_id" derived_labels /\
  ~ In "original_price" derived_labels.
Proof. repeat split; simpl; intuition discriminate. Qed.

(** The converse of [enrich_row_cells]. *)
Lemma enrich_row_from_cells :
  forall mapper nan r p o d u,
    to_usd mapper (nan "price") "price" r = Ok p ->
    assoc "original_price" r = Some o ->
    price_difference nan
      (set_cell "discount" (JNum (if isna o then 0%Q else 1%Q))
         (set_cell "price_USD" p r)) = Ok d ->
    to_usd mapper true "descuento_precio"
      (set_cell "descuento_precio" d
         (set_cell "discount" (JNum (if isna o then 0%Q else 1%Q))
            (set_cell "price_USD" p r))) = Ok u ->
    enrich_row mapper nan r
    = Ok (set_cell "descuento_USD" u
            (set_cell "descuento_precio" d
               (set_cell "discount" (JNum (if isna o then 0%Q else 1%Q))
                  (set_cell "price_USD" p r)))).
Proof.
  intros mapper nan r p o d u Hp Ho Hd Hu.
  unfold enrich_row. rewrite Hp. cbn [bind].
  assert (Ho1 : attr (set_cell "discount" (JNum 1%Q) (set_cell "price_USD" p r))
                     "original_price" = Ok o).
  { apply attr_assoc. rewrite !assoc_set_cell_other by discriminate. exact Ho. }
  rewrite Ho1. cbn [bind].
  assert (Hrow : (if isna o
                  then set_cell "discount" (JNum 0%Q)
                         (set_cell "discount" (JNum 1%Q)
                            (set_cell "price_USD" p r))
                  else set_cell "discount" (JNum 1%Q) (set_cell "price_USD" p r))
                 = set_cell "discount" (JNum (if isna o then 0%Q else 1%Q))
                     (set_cell "price_USD" p r)).
  { destruct (isna o); [apply set_cell_twice | reflexivity]. }
  rewrite Hrow, Hd. cbn [bind]. rewrite Hu. reflexivity.
Qed.

(** What a row held under the derived names does not reach the result. *)
Lemma enrich_row_overwrites :
  forall mapper nan (r r' r0 : row),
    enrich_row mapper nan r = Ok r' ->
    (forall name, ~ In name derived_labels -> assoc name r0 = assoc name r) ->
    exists r0',
      enrich_row mapper nan r0 = Ok r0' /\
      forall name, In name derived_labels -> assoc name r0' = assoc name r'.
Proof.
  intros mapper nan r r' r0 H Hsame.
  destruct not_derived as (Nprice & Ncur & Norig).
  pose proof (Hsame _ Nprice) as Hprice.
  pose proof (Hsame _ Ncur) as Hcur.
  pose proof (Hsame _ Norig) as Horig.
  apply enrich_row_cells in H.
  destruct H as (p & o & d & u & Hp & Ho & Hd & Hu & ->).
  assert (Hp0 : to_usd mapper (nan "price") "price" r0 = Ok p)
    by (rewrite <- Hp; apply to_usd_ext; assumption).
  assert (Hd0 : price_difference nan
                  (set_cell "discount" (JNum (if isna o then 0%Q else 1%Q))
                     (set_cell "price_USD" p r0)) = Ok d).
  { rewrite <- Hd. apply price_difference_ext.
    - rewrite !assoc_set_cell_same. reflexivity.
    - rewrite !assoc_set_cell_other by discriminate. exact Horig.
    - rewrite !assoc_set_cell_other by discriminate. exact Hprice. }
  assert (Hu0 : to_usd mapper true "descuento_precio"
                  (set_cell "descuento_precio" d
                     (set_cell "discount" (JNum (if isna o then 0%Q else 1%Q))
                     (set_cell "price_USD" p r0)))
                = Ok u).
  { rewrite <- Hu. apply to_usd_ext.
    - rewrite !assoc_set_cell_other by discriminate. exact Hcur.
    - rewrite !assoc_set_cell_same. reflexivity. }
  eexists. split.
  - apply (enrich_row_from_cells mapper nan r0 p o d u Hp0); try assumption.
    rewrite Horig. exact Ho.
  - intros name Hname. simpl in Hname.
    destruct Hname as [<- | [<- | [<- | [<- | []]]]].
    + transitivity (Some p); [|symmetry];
        (rewrite !assoc_set_cell_other by discriminate;
         apply assoc_set_cell_same).
    + transitivity (Some (JNum (if isna o then 0%Q else 1%Q))); [|symmetry];
        (rewrite !assoc_set_cell_other by discriminate;
         apply assoc_set_cell_same).
    + transitivity (Some d); [|symmetry];
        (rewrite !assoc_set_cell_other by discriminate;
         apply assoc_set_cell_same).
    + transitivity (Some u); [|symmetry]; apply assoc_set_cell_same.
Qed.

Lemma enrich_rows_overwrite :
  forall mapper nan df table df0,
    Forall2 (fun r r' => enrich_row mapper nan r = Ok r') df table ->
    Forall2 (fun r0 r =>
               forall name, ~ In name derived_labels ->
                            assoc name r0 = assoc name r) df0 df ->
    exists table0,
      Forall2 (fun r0 r0' => enrich_row mapper nan r0 = Ok r0') df0 table0 /\
      Forall2 (fun r0' r' =>
                 forall name, In name derived_labels ->
                              assoc name r0' = assoc name r') table0 table.
Proof.
  intros mapper nan df table df0 H. revert df0.
  induction H as [|r r' df table Hr _ IH]; intros df0 Hsame;
    inversion Hsame as [|r0 ? df0' ? Hrow Hrest]; subst.
  - exists []. split; constructor.
  - destruct (enrich_row_overwrites _ _ _ _ _ Hr Hrow) as (r0' & Hr0 & Hcells).
    destruct (IH _ Hrest) as (table0 & Hrows & Hderived).
    exists (r0' :: table0). split; constructor; assumption.
Qed.

(** C10, as stated, fails: a column of the input that has the name of a
    derived column is overwritten, and is not added. *)
Lemma enrichment_overwrites_derived_names :
  calculate_discount_metrics rates none_cells promo_table
  = Ok [[("price", JNum 7%Q); ("currency_id", JStr "USD");
         ("original_price", JNull); ("discount", JNum 0%Q);
         ("price_USD", JNum 7%Q); ("descuento_precio", JNum 0%Q);
         ("descuento_USD", JNum 0%Q)]]
  /\ map (assoc "discount") promo_table = [Some (JStr "10%")].
Proof. split; reflexivity. Qed.

(** C10, amended: a table the enricher returns has the rows of its input,
    one for one.  In each row every column whose name is not one of the
    four derived names holds what it held, and the columns are those of the
    input row followed by the derived names it did not have yet.  A column
    of the input that has a derived name is overwritten where it stands:
    [discount] holds 1 or 0 after the original price, and what the input
    held under the derived names does not reach the result, since an input
    that differs from this one only there is enriched to the same four
    derived columns. *)
Theorem enrichment_frame :
  forall mapper_currency nan_nulls df table,
    calculate_discount_metrics mapper_currency nan_nulls df = Ok table ->
    List.length table = List.length df /\
    Forall2 (fun r r' =>
               (forall name, ~ In name derived_labels ->
                             assoc name r' = assoc name r) /\
               labels r' = add_labels derived_labels (labels r) /\
               exists original,
                 assoc "original_price" r = Some original /\
                 assoc "discount" r'
                 = Some (JNum (if isna original then 0%Q else 1%Q)))
            df table /\
    forall df0,
      Forall2 (fun r0 r =>
                 forall name, ~ In name derived_labels ->
                              assoc name r0 = assoc name r) df0 df ->
      exists table0,
        calculate_discount_metrics mapper_currency nan_nulls df0 = Ok table0 /\
        Forall2 (fun r0' r' =>
                   forall name, In name derived_labels ->
                                assoc name r0' = assoc name r') table0 table.
Proof.
  intros mapper nan df table H.
  pose proof (calculate_discount_metrics_rows _ _ _ _ H) as Hrows.
  split; [symmetry; eapply Forall2_length; eassumption|]. split.
  - eapply Forall2_impl; [|exact Hrows].
    intros r r' Hr. apply enrich_row_inv in Hr.
    destruct Hr as (p & o & d & u & Ho & -> & _). split; [|split].
    + intros name Hname.
      rewrite !assoc_set_cell_other; [reflexivity | | | |];
        intros ->; apply Hname; simpl; auto.
    + rewrite !labels_set_cell. reflexivity.
    + exists o. split; [exact Ho|].
      rewrite !assoc_set_cell_other by discriminate.
      apply assoc_set_cell_same.
  - intros df0 Hsame.
    destruct (enrich_rows_overwrite _ _ _ _ _ Hrows Hsame)
      as (table0 & Hrows0 & Hderived).
    exists table0. split; [|exact Hderived].
    rewrite calculate_on_rows.
    + apply enrich_columns_rows. exact Hrows0.
    + intros ->. inversion Hsame; subst. discriminate H.
Qed.

(** The table with a [discount] column of its own, enriched, next to the
    same listing without that column. *)
Lemma enrichment_frame_witness :
  exists table,
    calculate_discount_metrics rates none_cells promo_table = Ok table /\
    List.length table = List.length promo_table /\
    map labels table
    = [["price"; "currency_id"; "original_price"; "discount"; "price_USD";
        "descuento_precio"; "descuento_USD"]] /\
    map (assoc "discount") table = [Some (JNum 0%Q)] /\
    exists table0,
      calculate_discount_metrics rates none_cells [priced_row 7%Q "USD" JNull]
      = Ok table0 /\
      Forall2 (fun r0' r' =>
                 forall name, In name derived_labels ->
                              assoc name r0' = assoc name r') table0 table.
Proof.
  eexists. split; [reflexivity|].
  match goal with
  | |- List.length ?t = _ /\ _ =>
      destruct (enrichment_frame rates none_cells promo_table t eq_refl)
        as (Hlen & _ & Hover)
  end.
  split; [exact Hlen|]. split; [reflexivity|]. split; [reflexivity|].
  apply Hover. constructor; [|constructor].
  intros name Hname. simpl.
  destruct (String.eqb name "price"); [reflexivity|].
  destruct (String.eqb name "currency_id"); [reflexivity|].
  destruct (String.eqb name "original_price"); [reflexivity|].
  destruct (String.eqb_spec name "discount"); [|reflexivity].
  exfalso. apply Hname. subst name. simpl. auto.
Defined.
